(** * Blacksmith: the DHCP/PXE core over its etcd registry

    A shallow embedding of [datasource/etcd.go], [datasource/etcd_machine.go]
    and [dhcp/dhcp.go].  Go strings are [string], byte slices are lists of
    integers in [0, 256), the etcd tree is an explicit store threaded through
    every call, and a run-time panic is an outcome of its own. *)

From Stdlib Require Import ZArith List String Ascii Bool Lia DecimalString.
From Stdlib Require DecimalPos DecimalN.
Import ListNotations.

Open Scope string_scope.
Open Scope list_scope.
Open Scope Z_scope.

(** ** Go runtime and standard-library functions the sources call *)

Module Go.

(** [len(s)] of a string. *)
Definition len (s : string) : Z := Z.of_nat (String.length s).

(** [[]byte(s)]. *)
Definition bytes_of_string (s : string) : list Z :=
  map (fun c => Z.of_N (N_of_ascii c)) (list_ascii_of_string s).

(** [byte(n)] for an [int] n: the low eight bits. *)
Definition to_byte (n : Z) : Z := n mod 256.

(** [s[i:]] and [s[i:j]] on strings; [None] is the slice-bounds panic. *)
Definition str_from (s : string) (i : Z) : option string :=
  if (0 <=? i) && (i <=? len s)
  then Some (substring (Z.to_nat i) (String.length s - Z.to_nat i) s)
  else None.

Definition str_slice (s : string) (i j : Z) : option string :=
  if (0 <=? i) && (i <=? j) && (j <=? len s)
  then Some (substring (Z.to_nat i) (Z.to_nat (j - i)) s)
  else None.

(** [b[1:]] on a byte slice: out of range when the slice is empty. *)
Definition bytes_from1 (b : list Z) : option (list Z) :=
  match b with
  | [] => None
  | _ :: rest => Some rest
  end.

(** [strings.Split(s, sep)] for a one-byte separator. *)
Fixpoint split_on (sep : ascii) (s : string) : list string :=
  match s with
  | EmptyString => [EmptyString]
  | String c rest =>
      if Ascii.eqb c sep then EmptyString :: split_on sep rest
      else match split_on sep rest with
           | [] => [String c EmptyString]
           | hd :: tl => String c hd :: tl
           end
  end.

(** [strings.Join(parts, sep)]. *)
Fixpoint join (sep : string) (parts : list string) : string :=
  match parts with
  | [] => EmptyString
  | [p] => p
  | p :: rest => (p ++ sep ++ join sep rest)%string
  end.

(** [strings.Replace(s, old, "", -1)] for a one-byte [old]. *)
Fixpoint remove_char (old : ascii) (s : string) : string :=
  match s with
  | EmptyString => EmptyString
  | String c rest =>
      if Ascii.eqb c old then remove_char old rest
      else String c (remove_char old rest)
  end.

(** [strings.LastIndex(s, sep)] for a one-byte separator; -1 when absent. *)
Fixpoint last_index_from (sep : ascii) (s : string) (pos : Z) (found : Z) : Z :=
  match s with
  | EmptyString => found
  | String c rest =>
      last_index_from sep rest (pos + 1) (if Ascii.eqb c sep then pos else found)
  end.

Definition LastIndex (s : string) (sep : ascii) : Z :=
  last_index_from sep s 0 (-1).

(** [path.Clean] and [path.Join], through the path's elements. *)
Fixpoint clean_elems (rooted : bool) (elems : list string) (stack : list string)
  : list string :=
  match elems with
  | [] => rev stack
  | e :: rest =>
      if String.eqb e "" || String.eqb e "." then clean_elems rooted rest stack
      else if String.eqb e ".." then
        match stack with
        | top :: below =>
            if String.eqb top ".."
            then clean_elems rooted rest (e :: stack)
            else clean_elems rooted rest below
        | [] =>
            if rooted then clean_elems rooted rest stack
            else clean_elems rooted rest [e]
        end
      else clean_elems rooted rest (e :: stack)
  end.

Definition path_Clean (p : string) : string :=
  let rooted := match p with String "/" _ => true | _ => false end in
  let body := join "/" (clean_elems rooted (split_on "/" p) []) in
  let out := if rooted then ("/" ++ body)%string else body in
  if String.eqb out "" then "." else out.

Definition path_Join (elems : list string) : string :=
  match filter (fun e => negb (String.eqb e "")) elems with
  | [] => ""
  | parts => path_Clean (join "/" parts)
  end.

(** [strconv.FormatInt(n, 10)] and [uitoa] on the non-negative numbers the
    sources print. *)
Definition itoa (n : Z) : string :=
  NilZero.string_of_uint (N.to_uint (Z.to_N n)).

End Go.

(** ** Package [net]: hardware addresses and IPv4 addresses *)

Module Net.

Definition HardwareAddr := list Z.
Definition IP := list Z.

Definition hexDigit (n : Z) : ascii :=
  match Z.to_nat n with
  | 0%nat => "0" | 1%nat => "1" | 2%nat => "2" | 3%nat => "3"
  | 4%nat => "4" | 5%nat => "5" | 6%nat => "6" | 7%nat => "7"
  | 8%nat => "8" | 9%nat => "9" | 10%nat => "a" | 11%nat => "b"
  | 12%nat => "c" | 13%nat => "d" | 14%nat => "e" | _ => "f"
  end%char.

Definition hex_pair (b : Z) : string :=
  String (hexDigit (Z.shiftr b 4)) (String (hexDigit (Z.land b 15)) EmptyString).

(** [HardwareAddr.String]: two lower-case hex digits a byte, colons between. *)
Fixpoint HardwareAddr_String (a : HardwareAddr) : string :=
  match a with
  | [] => ""
  | [b] => hex_pair b
  | b :: rest => (hex_pair b ++ ":" ++ HardwareAddr_String rest)%string
  end.

Definition hex_value (c : ascii) : option Z :=
  let n := Z.of_N (N_of_ascii c) in
  if (48 <=? n) && (n <=? 57) then Some (n - 48)
  else if (97 <=? n) && (n <=? 102) then Some (n - 97 + 10)
  else if (65 <=? n) && (n <=? 70) then Some (n - 65 + 10)
  else None.

(** [xtoi2(s, e)]: the two leading bytes of [s] as hex digits, and the byte
    after them, when there is one, equal to [e]. *)
Definition xtoi2 (s : string) (e : ascii) : option Z :=
  match s with
  | String a (String b rest) =>
      let sep_ok := match rest with
                    | String c _ => Ascii.eqb c e
                    | EmptyString => true
                    end in
      if sep_ok then
        match hex_value a, hex_value b with
        | Some x, Some y => Some (16 * x + y)
        | _, _ => None
        end
      else None
  | _ => None
  end.

Definition drop_str (n : nat) (s : string) : string :=
  substring n (String.length s - n) s.

(** The loop of [ParseMAC] over [n] groups of three bytes ([xx:]). *)
Fixpoint parse_groups3 (n : nat) (s : string) (sep : ascii) : option (list Z) :=
  match n with
  | O => Some []
  | S n' =>
      match xtoi2 s sep with
      | None => None
      | Some b =>
          match parse_groups3 n' (drop_str 3 s) sep with
          | None => None
          | Some bs => Some (b :: bs)
          end
      end
  end.

(** The loop of [ParseMAC] over groups of five bytes ([xxxx.]). *)
Fixpoint parse_groups5 (n : nat) (s : string) (sep : ascii) : option (list Z) :=
  match n with
  | O => Some []
  | S n' =>
      match xtoi2 (substring 0 2 s) zero, xtoi2 (drop_str 2 s) sep with
      | Some b1, Some b2 =>
          match parse_groups5 n' (drop_str 5 s) sep with
          | None => None
          | Some bs => Some (b1 :: b2 :: bs)
          end
      | _, _ => None
      end
  end.

Definition mac_size_ok (n : Z) : bool :=
  (n =? 6) || (n =? 8) || (n =? 20).

(** [net.ParseMAC]; [None] is the "invalid MAC address" error. *)
Definition ParseMAC (s : string) : option HardwareAddr :=
  if Go.len s <? 14 then None
  else
    match get 2 s, get 4 s with
    | Some c2, Some c4 =>
        if Ascii.eqb c2 ":" || Ascii.eqb c2 "-" then
          if negb ((Go.len s + 1) mod 3 =? 0) then None
          else
            let n := (Go.len s + 1) / 3 in
            if mac_size_ok n then parse_groups3 (Z.to_nat n) s c2 else None
        else if Ascii.eqb c4 "." then
          if negb ((Go.len s + 1) mod 5 =? 0) then None
          else
            let n := 2 * (Go.len s + 1) / 5 in
            if mac_size_ok n then parse_groups5 (Z.to_nat (n / 2)) s c4 else None
        else None
    | _, _ => None
    end.

Definition v4InV6Prefix : list Z := [0; 0; 0; 0; 0; 0; 0; 0; 0; 0; 255; 255].

Definition bytes_eqb (a b : list Z) : bool :=
  if list_eq_dec Z.eq_dec a b then true else false.

(** [net.IPv4(a, b, c, d)]: the 16-byte form. *)
Definition IPv4 (a b c d : Z) : IP := v4InV6Prefix ++ [a; b; c; d].

Definition IPv4zero : IP := IPv4 0 0 0 0.

(** [IP.To4]; the empty list is the nil slice. *)
Definition To4 (ip : IP) : IP :=
  if (List.length ip =? 4)%nat then ip
  else if (List.length ip =? 16)%nat && bytes_eqb (firstn 12 ip) v4InV6Prefix
       then skipn 12 ip
       else [].

(** [IP.Equal]. *)
Definition Equal (ip x : IP) : bool :=
  if (List.length ip =? List.length x)%nat then bytes_eqb ip x
  else if (List.length ip =? 4)%nat && (List.length x =? 16)%nat
       then bytes_eqb (firstn 12 x) v4InV6Prefix && bytes_eqb ip (skipn 12 x)
  else if (List.length ip =? 16)%nat && (List.length x =? 4)%nat
       then bytes_eqb (firstn 12 ip) v4InV6Prefix && bytes_eqb (skipn 12 ip) x
  else false.

Definition hexString (b : list Z) : string :=
  fold_right (fun x acc => (hex_pair x ++ acc)%string) "" b.

(** [IP.String]: ["<nil>"] for the nil address, dotted decimal for an IPv4
    address in either form, and the [?hex] fallback otherwise.  The IPv6
    text form is not part of the model: the allocator only formats nil and
    IPv4 addresses ([IPAdd] yields four bytes, the dispatcher passes only
    four-byte requested addresses, [ParseCIDR] below reads IPv4 text). *)
Definition IP_String (ip : IP) : string :=
  match ip with
  | [] => "<nil>"
  | _ =>
      match To4 ip with
      | [a; b; c; d] =>
          (Go.itoa a ++ "." ++ Go.itoa b ++ "." ++ Go.itoa c ++ "." ++ Go.itoa d)%string
      | _ => ("?" ++ hexString ip)%string
      end
  end.

(** [binary.BigEndian.Uint32] and [PutUint32] on four bytes. *)
Definition Uint32 (b : list Z) : option Z :=
  match b with
  | b0 :: b1 :: b2 :: b3 :: _ =>
      Some (Z.lor (Z.lor (Z.shiftl b0 24) (Z.shiftl b1 16))
                  (Z.lor (Z.shiftl b2 8) b3))
  | _ => None
  end.

Definition PutUint32 (v : Z) : list Z :=
  [Z.land (Z.shiftr v 24) 255; Z.land (Z.shiftr v 16) 255;
   Z.land (Z.shiftr v 8) 255; Z.land v 255].

(** A run of decimal digits as a number; [None] when empty or not digits. *)
Fixpoint dtoi_acc (s : string) (acc : Z) : option Z :=
  match s with
  | EmptyString => Some acc
  | String c rest =>
      let n := Z.of_N (N_of_ascii c) in
      if (48 <=? n) && (n <=? 57) then dtoi_acc rest (10 * acc + (n - 48))
      else None
  end.

Definition dtoi (s : string) : option Z :=
  match s with
  | EmptyString => None
  | _ => dtoi_acc s 0
  end.

Definition parseIPv4 (s : string) : option IP :=
  match map dtoi (Go.split_on "." s) with
  | [Some a; Some b; Some c; Some d] =>
      if (a <=? 255) && (b <=? 255) && (c <=? 255) && (d <=? 255)
      then Some (IPv4 a b c d) else None
  | _ => None
  end.

(** [net.ParseCIDR] on IPv4 text, returning the address part: the text must
    be [a.b.c.d/len] with [len] at most 32; anything else, a bare dotted quad
    included, is the "invalid CIDR address" error. *)
Definition ParseCIDR (s : string) : option IP :=
  match index 0 "/" s with
  | None => None
  | Some i =>
      let addr := substring 0 i s in
      let mask := drop_str (S i) s in
      match parseIPv4 addr, dtoi mask with
      | Some ip, Some n => if n <=? 32 then Some ip else None
      | _, _ => None
      end
  end.

End Net.

(** ** Package [dhcp4]: the parts of the packet library the handler uses *)

Module Dhcp4.

(** [dhcp4.IPAdd]: [start + add] on the four-byte form, as a [uint32];
    [None] is the index panic of reading a nil [To4]. *)
Definition IPAdd (start : Net.IP) (add : Z) : option Net.IP :=
  match Net.Uint32 (Net.To4 start) with
  | None => None
  | Some v => Some (Net.PutUint32 ((v + add) mod 2 ^ 32))
  end.

End Dhcp4.

(** ** The etcd v2 store behind [keysAPI]

    The tree is held flat: every node of the tree is one entry, keyed by the
    elements of its path.  Calls are reliable (no transport failure, no
    deadline): the properties below are about what the registry code does
    with the answers of a store that works. *)

Module Etcd.

Inductive Entry : Type :=
  | Dir
  | Leaf (value : string).

Definition Key := list string.
Definition Store := list (Key * Entry).

(** What the client reads back for one node. *)
Record Node : Type := mkNode {
  NodeKey : string;
  NodeValue : string;
  NodeDir : bool
}.

Record Response : Type := mkResponse {
  RespNode : Node;
  RespNodes : list Node   (* [response.Node.Nodes], the immediate children *)
}.

Definition key_of (path : string) : Key :=
  filter (fun e => negb (String.eqb e "")) (Go.split_on "/" path).

Definition path_of (k : Key) : string := ("/" ++ Go.join "/" k)%string.

Definition key_eqb (a b : Key) : bool :=
  if list_eq_dec string_dec a b then true else false.

Fixpoint lookup (st : Store) (k : Key) : option Entry :=
  match st with
  | [] => None
  | (k', e) :: rest => if key_eqb k' k then Some e else lookup rest k
  end.

Definition node_of (k : Key) (e : Entry) : Node :=
  match e with
  | Dir => mkNode (path_of k) "" true
  | Leaf v => mkNode (path_of k) v false
  end.

(** The entries directly under [k]. *)
Fixpoint children (st : Store) (k : Key) : list Node :=
  match st with
  | [] => []
  | (k', e) :: rest =>
      if (List.length k' =? S (List.length k))%nat
         && key_eqb (firstn (List.length k) k') k
      then node_of k' e :: children rest k
      else children rest k
  end.

(** [keysAPI.Get(ctx, path, opts)]; [inl] is the "Key not found" error. *)
Definition Get (st : Store) (path : string) : string + Response :=
  let k := key_of path in
  match k, lookup st k with
  | [], _ => inr (mkResponse (mkNode "/" "" true) (children st []))
  | _, Some e => inr (mkResponse (node_of k e) (children st k))
  | _, None => inl "Key not found"
  end.

Fixpoint put (st : Store) (k : Key) (e : Entry) : Store :=
  match st with
  | [] => [(k, e)]
  | (k', e') :: rest =>
      if key_eqb k' k then (k, e) :: rest else (k', e') :: put rest k e
  end.

(** The directories above [k], outermost first. *)
Fixpoint ancestors (n : nat) (k : Key) : list Key :=
  match n with
  | O => []
  | S n' => ancestors n' k ++ [firstn n k]
  end.

Definition is_leaf (st : Store) (k : Key) : bool :=
  match lookup st k with
  | Some (Leaf _) => true
  | _ => false
  end.

Definition mkdirs (st : Store) (ks : list Key) : Store :=
  fold_left (fun s d => match lookup s d with
                        | None => put s d Dir
                        | Some _ => s
                        end) ks st.

(** [keysAPI.Set(ctx, path, value, opts)]: create the node, or replace a
    leaf; missing directories on the way are created.  The store refuses to
    replace a directory ("Not a file") and to descend through a leaf
    ("Not a directory"). *)
Definition Set_ (st : Store) (path : string) (e : Entry) : Store * option string :=
  let k := key_of path in
  let above := ancestors (List.length k - 1) k in
  match k with
  | [] => (st, Some "Root is read only")
  | _ =>
      if existsb (is_leaf st) above then (st, Some "Not a directory")
      else match lookup st k with
           | Some Dir => (st, Some "Not a file")
           | _ => (put (mkdirs st above) k e, None)
           end
  end.

End Etcd.

(** ** The world the registry runs in: the store and the wall clock *)

Record World : Type := mkWorld {
  store : Etcd.Store;
  clock : Z               (* next value of [time.Now().UnixNano()] *)
}.

Inductive Res (A : Type) : Type :=
  | Ok (a : A) (w : World)
  | Panic.

Arguments Ok {A} a w.
Arguments Panic {A}.

Definition M (A : Type) : Type := World -> Res A.

Definition ret {A} (a : A) : M A := fun w => Ok a w.

Definition bind {A B} (m : M A) (k : A -> M B) : M B :=
  fun w => match m w with
           | Ok a w' => k a w'
           | Panic => Panic
           end.

Definition panic {A} : M A := fun _ => Panic.

(** A pure step that may hit a bounds panic. *)
Definition must {A} (o : option A) : M A :=
  match o with
  | Some a => ret a
  | None => panic
  end.

Notation "x <- m ;; k" := (bind m (fun x => k))
  (at level 61, m at next level, right associativity).
Notation "' pat <- m ;; k" := (bind m (fun x => match x with pat => k end))
  (at level 61, pat pattern, m at next level, right associativity).
Notation "m ;;; k" := (bind m (fun _ => k))
  (at level 61, right associativity).

Definition etcdGet (path : string) : M (string + Etcd.Response) :=
  fun w => Ok (Etcd.Get (store w) path) w.

Definition etcdSet (path : string) (e : Etcd.Entry) : M (option string) :=
  fun w => let (st, err) := Etcd.Set_ (store w) path e in
           Ok err (mkWorld st (clock w)).

Definition UnixNano : M Z :=
  fun w => Ok (clock w) (mkWorld (store w) (clock w + 1)).

(** Go's [error]: [None] is [nil]. *)
Definition error := option string.

(** ** Package [datasource]: the registry and the lease allocator *)

Module Datasource.

(** The fields of [EtcdDataSource] the registry reads.  [keysAPI] is the
    store of the world; the two mutexes serialise callers and have no part in
    a sequential run. *)
Record EtcdDataSource : Type := mkDS {
  leaseStart : Net.IP;
  leaseRange : Z;
  etcdDir : string
}.

(** [EtcdMachine]: the handle is the hardware address. *)
Record EtcdMachine : Type := mkMachine { Mac : Net.HardwareAddr }.

Definition LeaseStart (ds : EtcdDataSource) : Net.IP := leaseStart ds.
Definition LeaseRange (ds : EtcdDataSource) : Z := leaseRange ds.

Definition prefixify (ds : EtcdDataSource) (key : string) : string :=
  Go.path_Join [etcdDir ds; key].

(** [addColonToMacAddress]: the first twelve bytes of its argument, a colon
    after every second one, the last colon dropped. *)
Fixpoint addColon_loop (fuel : nat) (i : Z) (colonLessMac : string) (tmpmac : string)
  : option string :=
  match fuel with
  | O => Some tmpmac
  | S fuel' =>
      match Go.str_slice colonLessMac i (i + 1) with
      | None => None
      | Some c =>
          let tmpmac := (tmpmac ++ c)%string in
          let tmpmac := if i mod 2 =? 1 then (tmpmac ++ ":")%string else tmpmac in
          addColon_loop fuel' (i + 1) colonLessMac tmpmac
      end
  end.

Definition addColonToMacAddress (colonLessMac : string) : option string :=
  match addColon_loop 12 0 colonLessMac "" with
  | None => None
  | Some tmpmac => Go.str_slice tmpmac 0 (Go.len tmpmac - 1)
  end.

Definition nodeNameFromMac (mac : string) : string :=
  let tempName := ("node" ++ mac)%string in
  Go.remove_char ":" tempName.

(** [EtcdMachine.Name]. *)
Definition Name (m : EtcdMachine) : string :=
  let tempName := ("node" ++ Net.HardwareAddr_String (Mac m))%string in
  Go.remove_char ":" tempName.

(** The last element of an etcd key: [key[strings.LastIndex(key, "/")+1:]]. *)
Definition lastElem (key : string) : option string :=
  Go.str_from key (Go.LastIndex key "/" + 1).

(** [EtcdDataSource.Get] and [EtcdDataSource.Set]. *)
Definition Get (ds : EtcdDataSource) (key : string) : M (string * error) :=
  r <- etcdGet (prefixify ds key) ;;
  match r with
  | inl err => ret ("", Some err)
  | inr response => ret (Etcd.NodeValue (Etcd.RespNode response), None)
  end.

Definition Set_ (ds : EtcdDataSource) (key value : string) : M error :=
  etcdSet (prefixify ds key) (Etcd.Leaf value).

(** [EtcdMachine.prefixify], [selfGet], [selfSet]. *)
Definition mprefixify (m : EtcdMachine) (str : string) : string :=
  (Name m ++ "/" ++ str)%string.

Definition selfGet (ds : EtcdDataSource) (m : EtcdMachine) (key : string)
  : M (string * error) :=
  Get ds (mprefixify m key).

Definition selfSet (ds : EtcdDataSource) (m : EtcdMachine) (key value : string)
  : M error :=
  Set_ ds (mprefixify m key) value.

Definition SetFlag (ds : EtcdDataSource) (m : EtcdMachine) (key value : string)
  : M error :=
  selfSet ds m key value.

(** [EtcdMachine.IP]: the nil address comes with every error. *)
Definition IP (ds : EtcdDataSource) (m : EtcdMachine) : M (Net.IP * error) :=
  '(ipstring, err) <- selfGet ds m "IP" ;;
  match err with
  | Some e => ret ([], Some e)
  | None =>
      match Net.ParseCIDR ipstring with
      | None => ret ([], Some "invalid CIDR address")
      | Some ip => ret (ip, None)
      end
  end.

(** Modelled from the spec: [EtcdMachine.CheckIn] is called by
    [CreateMachine] but its body is not among the sources; the spec's
    [Touch] "updates [_last_seen]", the field of the node's directory that
    [store] below writes too. *)
Definition CheckIn (ds : EtcdDataSource) (m : EtcdMachine) : M unit :=
  now <- UnixNano ;;
  etcdSet (prefixify ds ("machines/" ++ Name m ++ "/_last_seen")) (Etcd.Leaf (Go.itoa now)) ;;;
  ret tt.

(** [GetMachine]: the handle, when the node's directory is there. *)
Definition GetMachine (ds : EtcdDataSource) (mac : Net.HardwareAddr)
  : M (option EtcdMachine) :=
  let name := nodeNameFromMac (Net.HardwareAddr_String mac) in
  r <- etcdGet (prefixify ds (Go.path_Join [("machines/" ++ name)%string])) ;;
  match r with
  | inl _ => ret None
  | inr response =>
      last <- must (lastElem (Etcd.NodeKey (Etcd.RespNode response))) ;;
      if String.eqb last name then ret (Some (mkMachine mac)) else ret None
  end.

(** The loop of [Machines] over the children of [machines/]. *)
Fixpoint Machines_loop (ds : EtcdDataSource) (ents : list Etcd.Node)
  (acc : list EtcdMachine) : M (list EtcdMachine * error) :=
  match ents with
  | [] => ret (acc, None)
  | ent :: rest =>
      let pathToMachineDir := Etcd.NodeKey ent in
      machineName <- must (lastElem pathToMachineDir) ;;
      macStr <- must (addColonToMacAddress machineName) ;;
      match Net.ParseMAC macStr with
      | None => ret ([], Some "invalid MAC address")
      | Some macAddr =>
          found <- GetMachine ds macAddr ;;
          match found with
          | None => ret ([], Some "Inconsistent datasource")
          | Some machine => Machines_loop ds rest (acc ++ [machine])
          end
      end
  end.

Definition Machines (ds : EtcdDataSource) : M (list EtcdMachine * error) :=
  r <- etcdGet (prefixify ds "/machines") ;;
  match r with
  | inl err => ret ([], Some err)
  | inr response => Machines_loop ds (Etcd.RespNodes response) []
  end.

(** The check loop of [CreateMachine]: [true] when some node already holds
    the hardware address or the IP, or cannot tell its IP. *)
Fixpoint CreateMachine_taken (ds : EtcdDataSource) (machines : list EtcdMachine)
  (mac : Net.HardwareAddr) (ip : Net.IP) : M bool :=
  match machines with
  | [] => ret false
  | node :: rest =>
      if String.eqb (Net.HardwareAddr_String (Mac node)) (Net.HardwareAddr_String mac)
      then ret true
      else
        '(nodeip, err) <- IP ds node ;;
        match err with
        | Some _ => ret true
        | None =>
            if String.eqb (Net.IP_String nodeip) (Net.IP_String ip) then ret true
            else CreateMachine_taken ds rest mac ip
        end
  end.

(** [CreateMachine]: the handle and [true], or [nil, false]. *)
Definition CreateMachine (ds : EtcdDataSource) (mac : Net.HardwareAddr) (ip : Net.IP)
  : M (option EtcdMachine) :=
  '(machines, err) <- Machines ds ;;
  match err with
  | Some _ => ret None
  | None =>
      taken <- CreateMachine_taken ds machines mac ip ;;
      if taken then ret None
      else
        let machine := mkMachine mac in
        let dir := ("machines/" ++ Name machine)%string in
        etcdSet (prefixify ds dir) Etcd.Dir ;;;
        etcdSet (prefixify ds (dir ++ "/_IP")) (Etcd.Leaf (Net.IP_String ip)) ;;;
        etcdSet (prefixify ds (dir ++ "/_mac"))
                (Etcd.Leaf (Net.HardwareAddr_String (Mac machine))) ;;;
        now <- UnixNano ;;
        etcdSet (prefixify ds (dir ++ "/_first_seen")) (Etcd.Leaf (Go.itoa now)) ;;;
        CheckIn ds machine ;;;
        SetFlag ds machine "state" "unknown" ;;;
        ret (Some machine)
  end.

(** [store]: rewrite [_IP] and [_last_seen] of a node. *)
Definition store_ (ds : EtcdDataSource) (m : EtcdMachine) (ip : Net.IP) : M unit :=
  etcdSet (prefixify ds ("machines/" ++ Name m ++ "/_IP")) (Etcd.Leaf (Net.IP_String ip)) ;;;
  now <- UnixNano ;;
  etcdSet (prefixify ds ("machines/" ++ Name m ++ "/_last_seen")) (Etcd.Leaf (Go.itoa now)) ;;;
  ret tt.

(** [assignedIPs], a [map[string]bool] only ever set to [true]: its keys. *)
Definition mem (k : string) (keys : list string) : bool :=
  existsb (String.eqb k) keys.

(** The first loop of [Assign]: [inl ip] is the early return for a known
    hardware address, [inr keys] the addresses seen in use. *)
Fixpoint Assign_find (ds : EtcdDataSource) (nic : string)
  (machines : list EtcdMachine) (assignedIPs : list string)
  : M (Net.IP + list string) :=
  match machines with
  | [] => ret (inr assignedIPs)
  | node :: rest =>
      if String.eqb (Net.HardwareAddr_String (Mac node)) nic then
        '(ip, _) <- IP ds node ;;
        store_ ds node ip ;;;
        ret (inl ip)
      else
        '(nodeIP, _) <- IP ds node ;;
        Assign_find ds nic rest (Net.IP_String nodeIP :: assignedIPs)
  end.

(** [net.ParseMAC] with its error dropped: the nil address on failure. *)
Definition ParseMAC_or_nil (nic : string) : Net.HardwareAddr :=
  match Net.ParseMAC nic with
  | Some mac => mac
  | None => []
  end.

(** The second loop of [Assign], from [i] for [fuel] rounds: the first
    address of the range that is not a key of [assignedIPs], and
    [nil, nil] when there is none. *)
Fixpoint Assign_scan (ds : EtcdDataSource) (nic : string)
  (assignedIPs : list string) (fuel : nat) (i : Z) : M (Net.IP * error) :=
  match fuel with
  | O => ret ([], None)
  | S fuel' =>
      ip <- must (Dhcp4.IPAdd (LeaseStart ds) i) ;;
      if negb (mem (Net.IP_String ip) assignedIPs) then
        let macAddress := ParseMAC_or_nil nic in
        CreateMachine ds macAddress ip ;;;
        ret (ip, None)
      else Assign_scan ds nic assignedIPs fuel' (i + 1)
  end.

Definition Assign (ds : EtcdDataSource) (nic : string) : M (Net.IP * error) :=
  '(machines, _) <- Machines ds ;;
  r <- Assign_find ds nic machines [] ;;
  match r with
  | inl ip => ret (ip, None)
  | inr assignedIPs =>
      Assign_scan ds nic assignedIPs (Z.to_nat (LeaseRange ds)) 0
  end.

(** The loop of [Request]: [inl ip] is the early return on an exact match,
    [inr (macExists, ipExists)] what the whole snapshot showed. *)
Fixpoint Request_find (ds : EtcdDataSource) (nic : string) (currentIP : Net.IP)
  (machines : list EtcdMachine) (macExists ipExists : bool)
  : M (Net.IP + bool * bool) :=
  match machines with
  | [] => ret (inr (macExists, ipExists))
  | node :: rest =>
      '(thisNodeIP, _) <- IP ds node ;;
      let ipMatch := String.eqb (Net.IP_String thisNodeIP) (Net.IP_String currentIP) in
      let macMatch := String.eqb nic (Net.HardwareAddr_String (Mac node)) in
      if ipMatch && macMatch then
        store_ ds node thisNodeIP ;;;
        ret (inl currentIP)
      else
        Request_find ds nic currentIP rest (macExists || macMatch) (ipExists || ipMatch)
  end.

Definition Request (ds : EtcdDataSource) (nic : string) (currentIP : Net.IP)
  : M (Net.IP * error) :=
  '(machines, _) <- Machines ds ;;
  r <- Request_find ds nic currentIP machines false false ;;
  match r with
  | inl ip => ret (ip, None)
  | inr (macExists, ipExists) =>
      if ipExists || macExists then ret ([], Some "Missmatch in lease pool")
      else
        let macAddress := ParseMAC_or_nil nic in
        CreateMachine ds macAddress currentIP ;;;
        ret (currentIP, None)
  end.

End Datasource.

(** ** Package [dhcp4], continued: packets as the handler builds them

    A packet is held as the header fields the handler copies and the list of
    its options in the order [AddOption] appended them; the wire encoding
    stays the library's. *)

Module Packet.

Inductive MessageType : Type :=
  | Discover | Offer | Request | Decline | ACK | NAK | Release | Inform.

Definition MessageType_byte (mt : MessageType) : Z :=
  match mt with
  | Discover => 1 | Offer => 2 | Request => 3 | Decline => 4
  | ACK => 5 | NAK => 6 | Release => 7 | Inform => 8
  end.

Definition OptionSubnetMask : Z := 1.
Definition OptionRouter : Z := 3.
Definition OptionDomainNameServer : Z := 6.
Definition OptionRequestedIPAddress : Z := 50.
Definition OptionIPAddressLeaseTime : Z := 51.
Definition OptionDHCPMessageType : Z := 53.
Definition OptionServerIdentifier : Z := 54.
Definition OptionParameterRequestList : Z := 55.

(** [dhcp4.Options], a [map[OptionCode][]byte]. *)
Definition Options := list (Z * list Z).

Fixpoint get (o : Options) (code : Z) : option (list Z) :=
  match o with
  | [] => None
  | (c, v) :: rest => if c =? code then Some v else get rest code
  end.

Record Packet : Type := mkPacket {
  OpCode : Z;
  XId : list Z;
  Flags : list Z;
  CIAddr : Net.IP;
  YIAddr : Net.IP;
  GIAddr : Net.IP;
  CHAddr : Net.HardwareAddr;
  Opts : list (Z * list Z)
}.

(** [SelectOrder] and [SelectOrderOrAll]; [None] is the nil order. *)
Fixpoint SelectOrder (o : Options) (order : list Z) : list (Z * list Z) :=
  match order with
  | [] => []
  | v :: rest =>
      match get o v with
      | Some data => (v, data) :: SelectOrder o rest
      | None => SelectOrder o rest
      end
  end.

Definition SelectOrderOrAll (o : Options) (order : option (list Z))
  : list (Z * list Z) :=
  match order with
  | None => o
  | Some order => SelectOrder o order
  end.

Definition AddOption (p : Packet) (code : Z) (value : list Z) : Packet :=
  mkPacket (OpCode p) (XId p) (Flags p) (CIAddr p) (YIAddr p) (GIAddr p)
           (CHAddr p) (Opts p ++ [(code, value)]).

(** [copy(p.YIAddr(), ip.To4())] into the zeroed field. *)
Definition addr4 (ip : Net.IP) : Net.IP :=
  match Net.To4 ip with
  | [a; b; c; d] => [a; b; c; d]
  | _ => [0; 0; 0; 0]
  end.

Definition Second : Z := 1000000000.

(** [OptionsLeaseTime]: the seconds of the duration, big-endian. *)
Definition OptionsLeaseTime (d : Z) : list Z :=
  Net.PutUint32 ((d / Second) mod 2 ^ 32).

(** [ReplyPacket]; [serverId] is appended as the bytes it holds. *)
Definition ReplyPacket (req : Packet) (mt : MessageType) (serverId yIAddr : Net.IP)
  (leaseDuration : Z) (options : list (Z * list Z)) : Packet :=
  let p := mkPacket 2 (XId req) (Flags req) [0; 0; 0; 0] (addr4 yIAddr)
                    (GIAddr req) (CHAddr req) [] in
  let p := AddOption p OptionDHCPMessageType [MessageType_byte mt] in
  let p := AddOption p OptionServerIdentifier serverId in
  let p := if 0 <? leaseDuration
           then AddOption p OptionIPAddressLeaseTime (OptionsLeaseTime leaseDuration)
           else p in
  fold_left (fun q o => AddOption q (fst o) (snd o)) options p.

End Packet.

(** ** Package [dhcp]: the DHCP/PXE handler *)

Module DHCP.

Import Packet.

Definition minLeaseHours : Z := 24.
Definition maxLeaseHours : Z := 48.

(** [time.Hour], in nanoseconds. *)
Definition Hour : Z := 3600 * Second.

(** [rand.Intn(n)] hands back [v % n] for the non-negative 31-bit value [v]
    it accepts from the source; [v] stands for that draw. *)
Definition rand_Intn (n : Z) (v : Z) : Z := v mod n.

Definition randLeaseDuration (v : Z) : Z :=
  let n := minLeaseHours + rand_Intn (maxLeaseHours - minLeaseHours) v in
  n * Hour.

Record DHCPSetting : Type := mkSetting {
  IFName : string;
  ServerIP : Net.IP;
  RouterAddr : Net.IP;
  SubnetMask : Net.IP
}.

(** The handler.  [DNSAddresses], [ClusterName] and [Version] are methods of
    the [DataSource] interface whose bodies are not among the sources; their
    answers are fields here. *)
Record DHCPHandler : Type := mkHandler {
  settings : DHCPSetting;
  datasource : Datasource.EtcdDataSource;
  DNSAddresses : list Z * error;
  ClusterName : string;
  bootMessage : string
}.

Definition newDHCPHandler (s : DHCPSetting) (ds : Datasource.EtcdDataSource)
  (dns : list Z * error) (cluster version : string) : DHCPHandler :=
  mkHandler s ds dns cluster ("Blacksmith (" ++ version ++ ")")%string.

(** [fillPXE], the writes into the buffer one after the other. *)
Definition fillPXE (h : DHCPHandler) : list Z :=
  let pxe := [] in
  let pxe := pxe ++ [6; 1; 3] in
  let pxe := pxe ++ [8; 7; 128; 0; 1] in
  let pxe := pxe ++ Net.To4 (ServerIP (settings h)) in
  let l := Go.to_byte (3 + Go.len (bootMessage h)) in
  let pxe := pxe ++ [9; l; 128; 0; 9] in
  let pxe := pxe ++ Go.bytes_of_string (bootMessage h) in
  let l := Go.to_byte (1 + Go.len (bootMessage h)) in
  let pxe := pxe ++ [10; l; 2] in
  let pxe := pxe ++ Go.bytes_of_string (bootMessage h) in
  pxe ++ [255].

(** The PXE tail shared by the Discover and the Request case:
    [guidVal[1:]] panics on an empty value. *)
Definition addPXE (h : DHCPHandler) (options : Options) (packet : Packet)
  : M Packet :=
  match get options 97 with
  | Some guidVal =>
      guid <- must (Go.bytes_from1 guidVal) ;;
      let packet := AddOption packet 60 (Go.bytes_of_string "PXEClient") in
      let packet := AddOption packet 97 guid in
      let packet := AddOption packet 43 (fillPXE h) in
      ret packet
  | None => ret packet
  end.

(** [DHCPHandler.ServeDHCP]; [None] is the nil packet (no reply), [v] the
    draw of the random source for the lease time. *)
Definition ServeDHCP (h : DHCPHandler) (v : Z) (p : Packet) (msgType : MessageType)
  (options : Options) : M (option Packet) :=
  let '(dns, err) := DNSAddresses h in
  match err with
  | Some _ => ret None
  | None =>
      let dhcpOptions :=
        [(OptionSubnetMask, Net.To4 (SubnetMask (settings h)));
         (OptionDomainNameServer, dns)] in
      let dhcpOptions :=
        match RouterAddr (settings h) with
        | [] => dhcpOptions
        | _ => dhcpOptions ++ [(OptionRouter, Net.To4 (RouterAddr (settings h)))]
        end in
      let macAddress :=
        Go.join "" (Go.split_on ":" (Net.HardwareAddr_String (CHAddr p))) in
      match msgType with
      | Discover =>
          '(ip, err) <- Datasource.Assign (datasource h) (Net.HardwareAddr_String (CHAddr p)) ;;
          match err with
          | Some _ => ret None
          | None =>
              let replyOptions :=
                SelectOrderOrAll dhcpOptions (get options OptionParameterRequestList) in
              let packet := ReplyPacket p Offer (ServerIP (settings h)) ip
                                        (randLeaseDuration v) replyOptions in
              packet <- addPXE h options packet ;;
              ret (Some packet)
          end
      | Request =>
          let notOurs :=
            match get options OptionServerIdentifier with
            | Some server => negb (Net.Equal server (ServerIP (settings h)))
            | None => false
            end in
          if notOurs then ret None
          else
            let requestedIP :=
              match get options OptionRequestedIPAddress with
              | Some ip => ip
              | None => CIAddr p
              end in
            if negb (List.length requestedIP =? 4)%nat || Net.Equal requestedIP Net.IPv4zero
            then ret None
            else
              '(_, err) <- Datasource.Request (datasource h)
                             (Net.HardwareAddr_String (CHAddr p)) requestedIP ;;
              match err with
              | Some _ => ret (Some (ReplyPacket p NAK (ServerIP (settings h)) [] 0 []))
              | None =>
                  let replyOptions :=
                    SelectOrderOrAll dhcpOptions (get options OptionParameterRequestList) in
                  let packet := ReplyPacket p ACK (ServerIP (settings h)) requestedIP
                                            (randLeaseDuration v) replyOptions in
                  packet <- addPXE h options packet ;;
                  let packet :=
                    AddOption packet 12
                      (Go.bytes_of_string
                         ("node" ++ macAddress ++ "." ++ ClusterName h)%string) in
                  ret (Some packet)
              end
      | Release | Decline => ret None
      | _ => ret None
      end
  end.

End DHCP.

(** ** Notions the properties are stated with *)

Module Props.

Import Datasource Packet DHCP.

(** The address as a number, when it is an IPv4 address. *)
Definition ip_num (ip : Net.IP) : option Z := Net.Uint32 (Net.To4 ip).

(** [ip] lies in [[leaseStart, leaseStart + leaseRange)]. *)
Definition in_pool (ds : EtcdDataSource) (ip : Net.IP) : Prop :=
  exists s v, ip_num (leaseStart ds) = Some s /\ ip_num ip = Some v /\
              s <= v < s + leaseRange ds.

(** The snapshot [Machines] takes in [w] holds a node with address [nic]. *)
Definition known (ds : EtcdDataSource) (nic : string) (w : World) : Prop :=
  exists machines e w1 node,
    Machines ds w = Ok (machines, e) w1 /\ In node machines /\
    Net.HardwareAddr_String (Mac node) = nic.

(** The message type a reply carries in option 53. *)
Definition reply_is (pkt : Packet) (mt : MessageType) : Prop :=
  get (Opts pkt) OptionDHCPMessageType = Some [MessageType_byte mt].

(** The hex form of a hardware address without separators. *)
Definition hex_mac (m : Net.HardwareAddr) : string := Net.hexString m.

(** The host name of option 12. *)
Definition hostname (h : DHCPHandler) (p : Packet) : list Z :=
  Go.bytes_of_string ("node" ++ hex_mac (CHAddr p) ++ "." ++ ClusterName h)%string.

(** Every byte of a slice is a byte. *)
Definition is_bytes (b : list Z) : Prop := Forall (fun x => 0 <= x < 256) b.

(** The packet and the world a run of the handler ends with. *)
Definition reply_of (r : Res (option Packet)) : Packet :=
  match r with
  | Ok (Some pkt) _ => pkt
  | _ => mkPacket 0 [] [] [] [] [] [] []
  end.

Definition world_of {A} (r : Res A) (w : World) : World :=
  match r with
  | Ok _ w' => w'
  | Panic => w
  end.

(** The value a run returns, [None] for a panic. *)
Definition value_of {A} (r : Res A) : option A :=
  match r with
  | Ok a _ => Some a
  | Panic => None
  end.

(** The three options every Offer and Ack starts with. *)
Definition reply_head (h : DHCPHandler) (v : Z) (mt : MessageType)
  : list (Z * list Z) :=
  [(OptionDHCPMessageType, [MessageType_byte mt]);
   (OptionServerIdentifier, ServerIP (settings h));
   (OptionIPAddressLeaseTime, OptionsLeaseTime (randLeaseDuration v))].

(** The options a PXE client gets on top, [None] where the handler
    panics. *)
Definition pxe_tail (h : DHCPHandler) (options : Options)
  : option (list (Z * list Z)) :=
  match get options 97 with
  | None => Some []
  | Some [] => None
  | Some (_ :: guid) =>
      Some [(60, Go.bytes_of_string "PXEClient"); (97, guid); (43, fillPXE h)]
  end.

(** The PXE vendor blob of the specification, for server address
    [a.b.c.d] and boot message [msg]. *)
Definition pxe_blob (a b c d : Z) (msg : string) : list Z :=
  [6; 1; 3] ++ [8; 7; 128; 0; 1; a; b; c; d] ++
  [9; 3 + Go.len msg; 128; 0; 9] ++ Go.bytes_of_string msg ++
  [10; 1 + Go.len msg; 2] ++ Go.bytes_of_string msg ++ [255].

End Props.

(** ** The literal scenario of the specification: pool 10.0.0.10 + 4 *)

Module Scenario.

Import Datasource Packet DHCP.

Definition ds : EtcdDataSource := mkDS [10; 0; 0; 10] 4 "blacksmith".

(** A pool of one address. *)
Definition ds1 : EtcdDataSource := mkDS [10; 0; 0; 10] 1 "blacksmith".

(** The store as [NewEtcdDataSource] leaves it: an empty [machines/]. *)
Definition w0 : World :=
  mkWorld [(["blacksmith"], Etcd.Dir); (["blacksmith"; "machines"], Etcd.Dir)] 1000.

Definition mac1 : Net.HardwareAddr := [170; 187; 204; 221; 238; 1].
Definition mac2 : Net.HardwareAddr := [170; 187; 204; 221; 238; 2].
Definition nic1 : string := "aa:bb:cc:dd:ee:01".
Definition nic2 : string := "aa:bb:cc:dd:ee:02".

Definition setting : DHCPSetting :=
  mkSetting "eth0" [10; 0; 0; 1] [10; 0; 0; 254] [255; 255; 255; 0].

Definition handler (d : EtcdDataSource) : DHCPHandler :=
  newDHCPHandler setting d ([8; 8; 8; 8], None) "cluster" "v0.2".

(** A client packet from [mac], nothing else set. *)
Definition from (mac : Net.HardwareAddr) : Packet :=
  mkPacket 1 [1; 2; 3; 4] [0; 0] [0; 0; 0; 0] [0; 0; 0; 0] [0; 0; 0; 0] mac [].

End Scenario.

(** ** The rest of the registry: deleting, flags, timestamps *)

Module Strconv.

(** [strconv.ParseInt(s, 10, 64)]: an optional sign and decimal digits, the
    value within the 64-bit range; [None] is the syntax or range error. *)
Definition ParseInt (s : string) : option Z :=
  match s with
  | EmptyString => None
  | String c rest =>
      let neg := Ascii.eqb c "-" in
      let digits := if Ascii.eqb c "+" || neg then rest else s in
      match Net.dtoi digits with
      | None => None
      | Some un =>
          if neg then (if un <=? 2 ^ 63 then Some (- un) else None)
          else (if un <? 2 ^ 63 then Some un else None)
      end
  end.

End Strconv.

Module Accessors.

Import Datasource.

(** Every entry but those under the key [k]. *)
Definition remove (st : Etcd.Store) (k : Etcd.Key) : Etcd.Store :=
  filter (fun ke => negb (Etcd.key_eqb (fst ke) k)) st.

(** [keysAPI.Delete(ctx, path, nil)]: a leaf goes; a missing key is "Key
    not found" and a directory, without the [Dir] option, "Not a file". *)
Definition etcd_Delete (st : Etcd.Store) (path : string)
  : Etcd.Store * option string :=
  let k := Etcd.key_of path in
  match k, Etcd.lookup st k with
  | [], _ => (st, Some "Root is read only")
  | _, None => (st, Some "Key not found")
  | _, Some Etcd.Dir => (st, Some "Not a file")
  | _, Some (Etcd.Leaf _) => (remove st k, None)
  end.

Definition etcdDelete (path : string) : M (option string) :=
  fun w => let (st, err) := etcd_Delete (store w) path in
           Ok err (mkWorld st (clock w)).

(** [EtcdDataSource.Delete]. *)
Definition Delete (ds : EtcdDataSource) (key : string) : M error :=
  etcdDelete (prefixify ds key).


(** [EtcdMachine.selfDelete], [GetFlag], [DeleteFlag], [GetAndDeleteFlag]. *)
Definition selfDelete (ds : EtcdDataSource) (m : EtcdMachine) (key : string) : M error :=
  Delete ds (mprefixify m key).

Definition GetFlag (ds : EtcdDataSource) (m : EtcdMachine) (key : string)
  : M (string * error) :=
  selfGet ds m key.

Definition DeleteFlag (ds : EtcdDataSource) (m : EtcdMachine) (key : string) : M error :=
  selfDelete ds m key.

Definition GetAndDeleteFlag (ds : EtcdDataSource) (m : EtcdMachine) (key : string)
  : M (string * error) :=
  '(val, err) <- GetFlag ds m key ;;
  match err with
  | Some e => ret ("", Some e)
  | None =>
      err <- DeleteFlag ds m key ;;
      ret (val, err)
  end.

(** A [time.Time], as its [UnixNano]. *)
Definition Time := Z.

(** [unixNanoStringToTime]: [time.Unix(0, n)] for the number read, or
    [time.Now()] and the error. *)
Definition unixNanoStringToTime (unixNano : string) : M (Time * error) :=
  match Strconv.ParseInt unixNano with
  | None => now <- UnixNano ;; ret (now, Some "strconv.ParseInt: parsing failed")
  | Some unixNanoi64 => ret (unixNanoi64, None)
  end.

Definition timeError (err : string) : M (Time * error) :=
  now <- UnixNano ;; ret (now, Some err).

(** [EtcdMachine.FirstSeen] and [LastSeen]. *)
Definition FirstSeen (ds : EtcdDataSource) (m : EtcdMachine) : M (Time * error) :=
  '(unixNanoString, err) <- selfGet ds m "firstSeen" ;;
  match err with
  | Some e => timeError e
  | None => unixNanoStringToTime unixNanoString
  end.

Definition LastSeen (ds : EtcdDataSource) (m : EtcdMachine) : M (Time * error) :=
  '(unixNanoString, err) <- selfGet ds m "lastSeen" ;;
  match err with
  | Some e => timeError e
  | None => unixNanoStringToTime unixNanoString
  end.

End Accessors.

(** ** Package [main]: the address of the interface *)

Module Main.

(** [net.IPv4bcast], [net.IPv6loopback], [net.IPv6unspecified]. *)
Definition IPv4bcast : Net.IP := Net.IPv4 255 255 255 255.
Definition IPv6loopback : Net.IP := [0; 0; 0; 0; 0; 0; 0; 0; 0; 0; 0; 0; 0; 0; 0; 1].
Definition IPv6unspecified : Net.IP := [0; 0; 0; 0; 0; 0; 0; 0; 0; 0; 0; 0; 0; 0; 0; 0].

(** [IP.IsLoopback], [IsMulticast], [IsLinkLocalUnicast], [IsUnspecified],
    [IsGlobalUnicast]. *)
Definition IsLoopback (ip : Net.IP) : bool :=
  match Net.To4 ip with
  | ip0 :: _ => ip0 =? 127
  | [] => Net.Equal ip IPv6loopback
  end.

Definition IsMulticast (ip : Net.IP) : bool :=
  match Net.To4 ip with
  | ip0 :: _ => Z.land ip0 240 =? 224
  | [] => (List.length ip =? 16)%nat && (nth 0 ip 0 =? 255)
  end.

Definition IsLinkLocalUnicast (ip : Net.IP) : bool :=
  match Net.To4 ip with
  | ip0 :: ip1 :: _ => (ip0 =? 169) && (ip1 =? 254)
  | [_] => false
  | [] => (List.length ip =? 16)%nat && (nth 0 ip 0 =? 254)
          && (Z.land (nth 1 ip 0) 192 =? 128)
  end.

Definition IsUnspecified (ip : Net.IP) : bool :=
  Net.Equal ip Net.IPv4zero || Net.Equal ip IPv6unspecified.

Definition IsGlobalUnicast (ip : Net.IP) : bool :=
  ((List.length ip =? 4)%nat || (List.length ip =? 16)%nat)
  && negb (Net.Equal ip IPv4bcast)
  && negb (IsUnspecified ip)
  && negb (IsLoopback ip)
  && negb (IsMulticast ip)
  && negb (IsLinkLocalUnicast ip).

(** A [net.Addr] of an interface: an [*net.IPNet], or something else. *)
Inductive Addr : Type :=
  | IPNet (ip : Net.IP) (mask : list Z)
  | OtherAddr.

(** The inner loop of [interfaceIP]: the first IPv4 address [f] accepts. *)
Fixpoint firstAddr (f : Net.IP -> bool) (addrs : list Addr) : option Net.IP :=
  match addrs with
  | [] => None
  | OtherAddr :: rest => firstAddr f rest
  | IPNet ipaddr _ :: rest =>
      match Net.To4 ipaddr with
      | [] => firstAddr f rest
      | ip => if f ip then Some ip else firstAddr f rest
      end
  end.

(** The outer loop, over the predicates in their order. *)
Fixpoint firstByClass (fs : list (Net.IP -> bool)) (addrs : list Addr)
  : option Net.IP :=
  match fs with
  | [] => None
  | f :: rest =>
      match firstAddr f addrs with
      | Some ip => Some ip
      | None => firstByClass rest addrs
      end
  end.

(** [interfaceIP], from what [iface.Addrs()] answered. *)
Definition interfaceIP (answer : list Addr * error) : Net.IP * error :=
  let '(addrs, err) := answer in
  match err with
  | Some e => ([], Some e)
  | None =>
      let fs := [IsGlobalUnicast; IsLinkLocalUnicast; IsLoopback] in
      match firstByClass fs addrs with
      | Some ip => (ip, None)
      | None => ([], Some "interface has no usable unicast addresses")
      end
  end.

End Main.

(** ** Further notions for the properties of the remaining code *)

Module Notions.

Import Datasource Packet DHCP.

(** A computation that ends without a panic from every world. *)
Definition total {A} (m : M A) : Prop :=
  forall w, exists a w', m w = Ok a w'.

(** The configured options [ServeDHCP] builds before it selects. *)
Definition configured (h : DHCPHandler) : Options :=
  let base := [(OptionSubnetMask, Net.To4 (SubnetMask (settings h)));
               (OptionDomainNameServer, fst (DNSAddresses h))] in
  match RouterAddr (settings h) with
  | [] => base
  | _ => base ++ [(OptionRouter, Net.To4 (RouterAddr (settings h)))]
  end.

(** The client asked for option [c], or sent no parameter request list. *)
Definition wanted (options : Options) (c : Z) : bool :=
  match get options OptionParameterRequestList with
  | None => true
  | Some order => existsb (Z.eqb c) order
  end.

(** The address a Request asks for: option 50, else [ciaddr]. *)
Definition requested (p : Packet) (options : Options) : Net.IP :=
  match get options OptionRequestedIPAddress with
  | Some ip => ip
  | None => CIAddr p
  end.

(** A string without a slash. *)
Fixpoint slash_free (s : string) : bool :=
  match s with
  | EmptyString => true
  | String c rest => negb (Ascii.eqb c "/") && slash_free rest
  end.

(** A path element [path.Clean] keeps as it is: not empty, no slash. *)
Definition kept (e : string) : Prop := e <> "" /\ slash_free e = true.

(** A plain name: kept, and neither [.] nor [..]. *)
Definition plain (e : string) : Prop := kept e /\ e <> "." /\ e <> "..".

(** An entry of a listing that the loop of [Machines] cannot get past:
    whatever [addColonToMacAddress] makes of its name does not parse. *)
Definition refused (ent : Etcd.Node) : Prop :=
  forall name text,
    Datasource.lastElem (Etcd.NodeKey ent) = Some name ->
    Datasource.addColonToMacAddress name = Some text ->
    Net.ParseMAC text = None.

(** Some IPv4 address of the interface is of the class [f]. *)
Definition has (f : Net.IP -> bool) (addrs : list Main.Addr) : Prop :=
  exists a mask, In (Main.IPNet a mask) addrs /\ Net.To4 a <> [] /\
                 f (Net.To4 a) = true.

End Notions.

(** ** Worlds and packets for the examples *)

Module Examples.

Import Datasource Accessors Packet DHCP Props Scenario.


(** The world after the flag [state] of the first machine was set. *)
Definition w_flag : World :=
  world_of (SetFlag ds (mkMachine mac1) "state" "installed" w0) w0.



(** The registry with one node: aa:bb:cc:dd:ee:01 at 10.0.0.10. *)
Definition w_one : World :=
  world_of (CreateMachine ds mac1 [10; 0; 0; 10] w0) w0.

(** The first Discover of the scenario, and one that lists options 1 and 3. *)
Definition discover1 : Res (option Packet) :=
  ServeDHCP (handler ds) 5 (from mac1) Discover [] w0.

Definition discover_listed : Res (option Packet) :=
  ServeDHCP (handler ds) 5 (from mac1) Discover
            [(OptionParameterRequestList, [1; 3])] w0.

(** A Request for 10.0.0.10 by option 50. *)
Definition request1 : Res (option Packet) :=
  ServeDHCP (handler ds) 5 (from mac1) Packet.Request
            [(OptionRequestedIPAddress, [10; 0; 0; 10])] w0.

(** The addresses of an interface: loopback first, then a global one. *)
Definition addrs : list Main.Addr :=
  [Main.IPNet [127; 0; 0; 1] [255; 0; 0; 0]; Main.OtherAddr;
   Main.IPNet [10; 0; 0; 1] [255; 255; 255; 0]].

End Examples.

(** * Properties *)

(** ** Running the monad *)

Lemma bind_Ok {A B} (m : M A) (k : A -> M B) w b w' :
  bind m k w = Ok b w' ->
  exists a w1, m w = Ok a w1 /\ k a w1 = Ok b w'.
Proof.
  unfold bind. destruct (m w) as [a w1|]; [|discriminate].
  intros H. exists a, w1. split; [reflexivity|exact H].
Qed.

Lemma ret_Ok {A} (a b : A) w w' : ret a w = Ok b w' -> a = b /\ w = w'.
Proof. unfold ret. intros H. injection H as -> ->. split; reflexivity. Qed.

Lemma must_Ok {A} (o : option A) a w w' :
  must o w = Ok a w' -> o = Some a /\ w = w'.
Proof.
  destruct o as [x|]; simpl; [|discriminate].
  intros H. apply ret_Ok in H. destruct H as [-> ->]. split; reflexivity.
Qed.

(** ** Lease time *)

Lemma lease_hours (v : Z) :
  exists n, DHCP.randLeaseDuration v = n * DHCP.Hour /\ 24 <= n < 48.
Proof.
  unfold DHCP.randLeaseDuration, DHCP.rand_Intn, DHCP.minLeaseHours,
    DHCP.maxLeaseHours.
  exists (24 + v mod (48 - 24)).
  assert (Hm : 0 <= v mod (48 - 24) < 24) by (apply Z.mod_pos_bound; lia).
  split; [reflexivity|lia].
Qed.

Lemma randLeaseDuration_pos (v : Z) : (0 <? DHCP.randLeaseDuration v) = true.
Proof.
  destruct (lease_hours v) as [n [E Hn]].
  rewrite E. apply Z.ltb_lt. unfold DHCP.Hour, Packet.Second. lia.
Qed.

(** C9.  Whatever the random source draws, the lease duration is a whole
    number [n] of hours with [24 <= n < 48], that is between 86400 and
    172800 seconds, the upper end excluded. *)
Theorem randLeaseDuration_hours (v : Z) :
  exists n, DHCP.randLeaseDuration v = n * DHCP.Hour /\ 24 <= n < 48 /\
            86400 <= DHCP.randLeaseDuration v / Packet.Second < 172800.
Proof.
  destruct (lease_hours v) as [n [E Hn]].
  exists n. split; [exact E|]. split; [exact Hn|].
  rewrite E. unfold DHCP.Hour.
  replace (n * (3600 * Packet.Second)) with (n * 3600 * Packet.Second) by ring.
  rewrite Z.div_mul by (unfold Packet.Second; lia). lia.
Qed.

(** ** Strings: separators of a hardware address *)

Lemma split_on_nonempty sep s : Go.split_on sep s <> [].
Proof.
  destruct s as [|c rest]; simpl; [discriminate|].
  destruct (Ascii.eqb c sep); [discriminate|].
  destruct (Go.split_on sep rest); discriminate.
Qed.

Lemma join_empty_cons x l :
  Go.join "" (x :: l) = (x ++ Go.join "" l)%string.
Proof.
  destruct l as [|y l]; simpl.
  - induction x as [|c x IH]; simpl; [reflexivity|]. now rewrite <- IH.
  - reflexivity.
Qed.

(** [strings.Join(strings.Split(s, ":"), "")] is [strings.Replace(s, ":", "", -1)]. *)
Lemma join_split_remove sep s :
  Go.join "" (Go.split_on sep s) = Go.remove_char sep s.
Proof.
  induction s as [|c rest IH]; simpl; [reflexivity|].
  destruct (Ascii.eqb c sep).
  - rewrite join_empty_cons. simpl. exact IH.
  - destruct (Go.split_on sep rest) as [|hd tl] eqn:E.
    + exfalso. exact (split_on_nonempty sep rest E).
    + rewrite join_empty_cons. rewrite join_empty_cons in IH.
      simpl. now rewrite IH.
Qed.

Lemma hexDigit_not_colon n : Ascii.eqb (Net.hexDigit n) ":" = false.
Proof.
  unfold Net.hexDigit. destruct (Z.to_nat n) as [|k]; [reflexivity|].
  do 14 (destruct k as [|k]; [reflexivity|]). reflexivity.
Qed.

Lemma remove_colon_hex_pair b s :
  Go.remove_char ":" (Net.hex_pair b ++ s) =
  (Net.hex_pair b ++ Go.remove_char ":" s)%string.
Proof.
  unfold Net.hex_pair. simpl. now rewrite !hexDigit_not_colon.
Qed.

Lemma append_empty_r s : (s ++ "")%string = s.
Proof. induction s as [|c s IH]; simpl; [reflexivity|now rewrite IH]. Qed.

(** Taking the colons out of the text of a hardware address leaves its
    hex digits. *)
Lemma remove_colon_mac (m : Net.HardwareAddr) :
  Go.remove_char ":" (Net.HardwareAddr_String m) = Net.hexString m.
Proof.
  induction m as [|b rest IH]; [reflexivity|].
  destruct rest as [|b' rest'].
  - cbn [Net.HardwareAddr_String Net.hexString fold_right].
    rewrite <- (append_empty_r (Net.hex_pair b)) at 1.
    rewrite remove_colon_hex_pair. reflexivity.
  - change (Net.HardwareAddr_String (b :: b' :: rest'))
      with (Net.hex_pair b ++ ":" ++ Net.HardwareAddr_String (b' :: rest'))%string.
    rewrite remove_colon_hex_pair.
    change (Go.remove_char ":" (":" ++ Net.HardwareAddr_String (b' :: rest')))
      with (Go.remove_char ":" (Net.HardwareAddr_String (b' :: rest'))).
    rewrite IH. reflexivity.
Qed.

(** The name of a node is ["node"] and the hex digits of its address. *)
Lemma Name_hex (m : Datasource.EtcdMachine) :
  Datasource.Name m = ("node" ++ Net.hexString (Datasource.Mac m))%string.
Proof.
  unfold Datasource.Name. simpl. now rewrite remove_colon_mac.
Qed.

Lemma nodeNameFromMac_hex (m : Net.HardwareAddr) :
  Datasource.nodeNameFromMac (Net.HardwareAddr_String m) =
  ("node" ++ Net.hexString m)%string.
Proof.
  unfold Datasource.nodeNameFromMac. simpl. now rewrite remove_colon_mac.
Qed.

(** ** The options of a reply *)

Section ReplyOptions.

Import Packet DHCP Props.

Lemma get_app (l1 l2 : Options) c :
  get (l1 ++ l2) c = match get l1 c with
                     | Some v => Some v
                     | None => get l2 c
                     end.
Proof.
  induction l1 as [|[c' v'] l1 IH]; simpl; [reflexivity|].
  destruct (c' =? c); [reflexivity|exact IH].
Qed.

Lemma get_In (o : Options) c v : get o c = Some v -> In (c, v) o.
Proof.
  induction o as [|[c' v'] o IH]; simpl; [discriminate|].
  destruct (c' =? c) eqn:E.
  - intros H. injection H as ->. apply Z.eqb_eq in E. subst. now left.
  - intros H. right. exact (IH H).
Qed.

Lemma get_absent (o : Options) c :
  (forall v, ~ In (c, v) o) -> get o c = None.
Proof.
  intros H. destruct (get o c) as [v|] eqn:E; [|reflexivity].
  exfalso. exact (H v (get_In _ _ _ E)).
Qed.

Lemma SelectOrder_In (o : Options) order c v :
  In (c, v) (SelectOrder o order) -> In (c, v) o.
Proof.
  induction order as [|x rest IH]; simpl; [tauto|].
  destruct (get o x) as [data|] eqn:E; [|exact IH].
  intros [H|H]; [|exact (IH H)].
  injection H as -> ->. exact (get_In _ _ _ E).
Qed.

Lemma SelectOrderOrAll_In (o : Options) order c v :
  In (c, v) (SelectOrderOrAll o order) -> In (c, v) o.
Proof.
  destruct order as [order|]; simpl; [apply SelectOrder_In|tauto].
Qed.

Lemma Opts_fold options p :
  Opts (fold_left (fun q o => AddOption q (fst o) (snd o)) options p) =
  Opts p ++ options.
Proof.
  revert p. induction options as [|[c v] rest IH]; intros p; simpl.
  - now rewrite app_nil_r.
  - rewrite IH. simpl. now rewrite <- app_assoc.
Qed.

Lemma Opts_ReplyPacket req mt sid y d options :
  Opts (ReplyPacket req mt sid y d options) =
  [(OptionDHCPMessageType, [MessageType_byte mt]); (OptionServerIdentifier, sid)]
  ++ (if 0 <? d then [(OptionIPAddressLeaseTime, OptionsLeaseTime d)] else [])
  ++ options.
Proof.
  unfold ReplyPacket. rewrite Opts_fold.
  destruct (0 <? d); reflexivity.
Qed.

(** What [addPXE] appends. *)
Lemma addPXE_Opts h options packet packet' w w' :
  addPXE h options packet w = Ok packet' w' ->
  exists tail, pxe_tail h options = Some tail /\
               Opts packet' = Opts packet ++ tail /\ w' = w.
Proof.
  unfold addPXE, pxe_tail.
  destruct (get options 97) as [guidVal|].
  - destruct guidVal as [|b guid]; simpl; [discriminate|].
    intros H. apply ret_Ok in H. destruct H as [<- <-].
    eexists. split; [reflexivity|]. split; [|reflexivity].
    simpl. now rewrite <- !app_assoc.
  - intros H. apply ret_Ok in H. destruct H as [<- <-].
    exists []. split; [reflexivity|]. split; [|reflexivity].
    now rewrite app_nil_r.
Qed.

(** Every reply of the handler is one of three: an Offer, a Nak, an Ack.
    [ro] are the configured options picked for the client, all with code 1,
    3 or 6. *)
Lemma ServeDHCP_reply h v p mt options w pkt w' :
  ServeDHCP h v p mt options w = Ok (Some pkt) w' ->
  exists ro,
    (forall c x, In (c, x) ro -> c = 1 \/ c = 6 \/ c = 3) /\
    ((mt = Discover /\ exists tail, pxe_tail h options = Some tail /\
        Opts pkt = reply_head h v Offer ++ ro ++ tail) \/
     (mt = Request /\
        Opts pkt = [(OptionDHCPMessageType, [MessageType_byte NAK]);
                    (OptionServerIdentifier, ServerIP (settings h))]) \/
     (mt = Request /\ exists tail, pxe_tail h options = Some tail /\
        Opts pkt = reply_head h v ACK ++ ro ++ tail ++
          [(12, Go.bytes_of_string
                  ("node" ++ Go.join "" (Go.split_on ":" (Net.HardwareAddr_String (CHAddr p)))
                   ++ "." ++ ClusterName h)%string)])).
Proof.
  unfold ServeDHCP.
  destruct (DNSAddresses h) as [dns [e|]]; [discriminate|].
  set (base := [(OptionSubnetMask, Net.To4 (SubnetMask (settings h)));
                (OptionDomainNameServer, dns)]).
  set (dhcpOptions := match RouterAddr (settings h) with
                      | [] => base
                      | _ => base ++ [(OptionRouter, Net.To4 (RouterAddr (settings h)))]
                      end).
  assert (Hcodes : forall c x, In (c, x) dhcpOptions -> c = 1 \/ c = 6 \/ c = 3).
  { intros c x. subst dhcpOptions base.
    destruct (RouterAddr (settings h)); simpl; intros Hin;
      repeat (destruct Hin as [Hin|Hin]; [injection Hin as <- <-; auto|]);
      contradiction. }
  set (ro := SelectOrderOrAll dhcpOptions (get options OptionParameterRequestList)).
  assert (Hro : forall c x, In (c, x) ro -> c = 1 \/ c = 6 \/ c = 3).
  { intros c x Hin. apply (Hcodes c x). subst ro.
    exact (SelectOrderOrAll_In _ _ _ _ Hin). }
  intros H. exists ro. split; [exact Hro|].
  destruct mt; try (apply ret_Ok in H; destruct H; discriminate).
  - (* Discover *)
    left. split; [reflexivity|].
    apply bind_Ok in H. destruct H as [[ip err] [w1 [_ H]]].
    destruct err as [e|]; [apply ret_Ok in H; destruct H; discriminate|].
    apply bind_Ok in H. destruct H as [packet [w2 [Hpxe H]]].
    apply ret_Ok in H. destruct H as [H _]. injection H as <-.
    apply addPXE_Opts in Hpxe. destruct Hpxe as [tail [Ht [Ho _]]].
    exists tail. split; [exact Ht|].
    rewrite Ho, Opts_ReplyPacket, randLeaseDuration_pos.
    unfold reply_head. simpl. reflexivity.
  - (* Request *)
    right.
    destruct (match get options OptionServerIdentifier with
              | Some server => negb (Net.Equal server (ServerIP (settings h)))
              | None => false
              end); [apply ret_Ok in H; destruct H; discriminate|].
    match type of H with
    | (if ?c then _ else _) _ = _ => destruct c
    end; [apply ret_Ok in H; destruct H; discriminate|].
    apply bind_Ok in H. destruct H as [[ip err] [w1 [_ H]]].
    destruct err as [e|].
    + left. apply ret_Ok in H. destruct H as [H _]. injection H as <-.
      split; [reflexivity|]. rewrite Opts_ReplyPacket. reflexivity.
    + right. split; [reflexivity|].
      apply bind_Ok in H. destruct H as [packet [w2 [Hpxe H]]].
      apply ret_Ok in H. destruct H as [H _]. injection H as <-.
      apply addPXE_Opts in Hpxe. destruct Hpxe as [tail [Ht [Ho _]]].
      exists tail. split; [exact Ht|].
      simpl. rewrite Ho, Opts_ReplyPacket, randLeaseDuration_pos.
      unfold reply_head. simpl. now rewrite <- !app_assoc.
Qed.

End ReplyOptions.

(** ** PXE options and the host name *)

Section PXE.

Import Packet DHCP Props.

Lemma get_reply_head h v mt c :
  c <> 53 -> c <> 54 -> c <> 51 -> get (reply_head h v mt) c = None.
Proof.
  intros H1 H2 H3. unfold reply_head, get, OptionDHCPMessageType,
    OptionServerIdentifier, OptionIPAddressLeaseTime.
  destruct (53 =? c) eqn:E1; [apply Z.eqb_eq in E1; lia|].
  destruct (54 =? c) eqn:E2; [apply Z.eqb_eq in E2; lia|].
  destruct (51 =? c) eqn:E3; [apply Z.eqb_eq in E3; lia|].
  reflexivity.
Qed.

Lemma get_reply_head_type h v mt :
  get (reply_head h v mt) OptionDHCPMessageType = Some [MessageType_byte mt].
Proof. reflexivity. Qed.

Lemma get_configured (ro : Options) c :
  (forall c' x, In (c', x) ro -> c' = 1 \/ c' = 6 \/ c' = 3) ->
  c <> 1 -> c <> 6 -> c <> 3 -> get ro c = None.
Proof.
  intros Hro H1 H6 H3. apply get_absent. intros x Hin.
  destruct (Hro c x Hin) as [E|[E|E]]; lia.
Qed.

Lemma get_pxe_tail_other h options tail c :
  pxe_tail h options = Some tail ->
  c <> 60 -> c <> 97 -> c <> 43 -> get tail c = None.
Proof.
  unfold pxe_tail. destruct (get options 97) as [[|t guid]|]; intros H;
    try discriminate; injection H as <-; intros H1 H2 H3; [|reflexivity].
  unfold get.
  destruct (60 =? c) eqn:E1; [apply Z.eqb_eq in E1; lia|].
  destruct (97 =? c) eqn:E2; [apply Z.eqb_eq in E2; lia|].
  destruct (43 =? c) eqn:E3; [apply Z.eqb_eq in E3; lia|].
  reflexivity.
Qed.

(** [fillPXE] is the blob of the specification when the server address is
    IPv4 and the length bytes hold the lengths. *)
Lemma fillPXE_blob h a b c d :
  Net.To4 (ServerIP (settings h)) = [a; b; c; d] ->
  Go.len (bootMessage h) <= 252 ->
  fillPXE h = pxe_blob a b c d (bootMessage h).
Proof.
  intros Hip Hlen. unfold fillPXE, pxe_blob, Go.to_byte. rewrite Hip.
  assert (H0 : 0 <= Go.len (bootMessage h)) by (unfold Go.len; lia).
  rewrite !Z.mod_small by lia.
  simpl. rewrite <- !app_assoc. reflexivity.
Qed.

(** C6.  An Offer or Ack for a packet with option 97 carries option 60 with
    the bytes of ["PXEClient"], option 97 with the request's value less its
    first byte, and in option 43 the blob [06 01 03], [08 07 80 00 01] and
    the four bytes of the server address, [09 (3+len) 80 00 09] and the boot
    message, [0A (1+len) 02] and the boot message, [FF]; the server address
    is IPv4 and the boot message short enough for its length bytes. *)
Theorem pxe_option_parity h v p mt options w pkt w' guidVal a b c d :
  ServeDHCP h v p mt options w = Ok (Some pkt) w' ->
  reply_is pkt Offer \/ reply_is pkt ACK ->
  get options 97 = Some guidVal ->
  Net.To4 (ServerIP (settings h)) = [a; b; c; d] ->
  Go.len (bootMessage h) <= 252 ->
  exists t guid,
    guidVal = t :: guid /\
    get (Opts pkt) 60 = Some (Go.bytes_of_string "PXEClient") /\
    get (Opts pkt) 97 = Some guid /\
    get (Opts pkt) 43 = Some (pxe_blob a b c d (bootMessage h)).
Proof.
  intros Hrun Htype H97 Hip Hlen.
  destruct (ServeDHCP_reply _ _ _ _ _ _ _ _ Hrun) as [ro [Hro Hcase]].
  assert (Htail : forall tail, pxe_tail h options = Some tail ->
            exists t guid, guidVal = t :: guid /\
              tail = [(60, Go.bytes_of_string "PXEClient"); (97, guid);
                      (43, pxe_blob a b c d (bootMessage h))]).
  { intros tail. unfold pxe_tail. rewrite H97.
    destruct guidVal as [|t guid]; [discriminate|].
    intros H. injection H as <-. exists t, guid.
    now rewrite (fillPXE_blob h a b c d Hip Hlen). }
  destruct Hcase as [[_ [tail [Ht Ho]]]|[[_ Ho]|[_ [tail [Ht Ho]]]]].
  - destruct (Htail tail Ht) as [t [guid [-> ->]]]. exists t, guid.
    split; [reflexivity|]. rewrite Ho.
    repeat split; rewrite get_app, get_reply_head by lia;
      rewrite get_app, (get_configured ro _ Hro) by lia; reflexivity.
  - exfalso. unfold reply_is in Htype. rewrite Ho in Htype.
    destruct Htype as [H|H]; discriminate H.
  - destruct (Htail tail Ht) as [t [guid [-> ->]]]. exists t, guid.
    split; [reflexivity|]. rewrite Ho.
    repeat split; rewrite get_app, get_reply_head by lia;
      rewrite get_app, (get_configured ro _ Hro) by lia; reflexivity.
Qed.

(** C7, as amended.  An Ack carries option 12 with ["node"], the hex digits
    of the client's hardware address, a dot and the cluster name; an Offer
    carries no option 12. *)
Theorem hostname_on_ack_only h v p mt options w pkt w' :
  ServeDHCP h v p mt options w = Ok (Some pkt) w' ->
  (reply_is pkt ACK -> get (Opts pkt) 12 = Some (hostname h p)) /\
  (reply_is pkt Offer -> get (Opts pkt) 12 = None).
Proof.
  intros Hrun.
  destruct (ServeDHCP_reply _ _ _ _ _ _ _ _ Hrun) as [ro [Hro Hcase]].
  unfold reply_is.
  destruct Hcase as [[_ [tail [Ht Ho]]]|[[_ Ho]|[_ [tail [Ht Ho]]]]];
    rewrite Ho.
  - split.
    + rewrite get_app, get_reply_head_type. discriminate.
    + intros _. rewrite get_app, get_reply_head by lia.
      rewrite get_app, (get_configured ro _ Hro) by lia.
      apply (get_pxe_tail_other h options tail 12 Ht); lia.
  - split; discriminate.
  - split.
    + intros _. rewrite get_app, get_reply_head by lia.
      rewrite get_app, (get_configured ro _ Hro) by lia.
      rewrite get_app, (get_pxe_tail_other h options tail 12 Ht) by lia.
      unfold hostname, hex_mac.
      rewrite join_split_remove, remove_colon_mac. reflexivity.
    + rewrite get_app, get_reply_head_type. discriminate.
Qed.

End PXE.

Section PXEExamples.

Import Packet DHCP Props Scenario.

(** A Discover with a three-byte option 97 in the empty registry. *)
Lemma pxe_option_parity_witness :
  exists t guid,
    [0; 17; 34] = t :: guid /\
    get (Opts (reply_of (ServeDHCP (handler ds) 5 (from mac2) Discover
                           [(97, [0; 17; 34])] w0))) 60
      = Some (Go.bytes_of_string "PXEClient") /\
    get (Opts (reply_of (ServeDHCP (handler ds) 5 (from mac2) Discover
                           [(97, [0; 17; 34])] w0))) 97 = Some guid /\
    get (Opts (reply_of (ServeDHCP (handler ds) 5 (from mac2) Discover
                           [(97, [0; 17; 34])] w0))) 43
      = Some (pxe_blob 10 0 0 1 (bootMessage (handler ds))).
Proof.
  apply (pxe_option_parity (handler ds) 5 (from mac2) Discover
           [(97, [0; 17; 34])] w0 _
           (world_of (ServeDHCP (handler ds) 5 (from mac2) Discover
                        [(97, [0; 17; 34])] w0) w0)
           [0; 17; 34] 10 0 0 1).
  - vm_compute. reflexivity.
  - left. vm_compute. reflexivity.
  - reflexivity.
  - reflexivity.
  - vm_compute. discriminate.
Defined.

(** An Ack for a Request of 10.0.0.10 in the empty registry. *)
Lemma hostname_on_ack_only_witness :
  (reply_is (reply_of (ServeDHCP (handler ds) 5 (from mac1) Request
                         [(50, [10; 0; 0; 10])] w0)) ACK ->
   get (Opts (reply_of (ServeDHCP (handler ds) 5 (from mac1) Request
                          [(50, [10; 0; 0; 10])] w0))) 12
     = Some (hostname (handler ds) (from mac1))) /\
  (reply_is (reply_of (ServeDHCP (handler ds) 5 (from mac1) Request
                         [(50, [10; 0; 0; 10])] w0)) Offer ->
   get (Opts (reply_of (ServeDHCP (handler ds) 5 (from mac1) Request
                          [(50, [10; 0; 0; 10])] w0))) 12 = None).
Proof.
  apply (hostname_on_ack_only (handler ds) 5 (from mac1) Request
           [(50, [10; 0; 0; 10])] w0 _
           (world_of (ServeDHCP (handler ds) 5 (from mac1) Request
                        [(50, [10; 0; 0; 10])] w0) w0)).
  vm_compute. reflexivity.
Defined.

(** C7, the claim as stated fails: the Offer for the first Discover of the
    scenario is a positive reply and has no option 12. *)
Lemma offer_without_hostname :
  exists pkt w',
    ServeDHCP (handler ds) 5 (from mac1) Discover [] w0 = Ok (Some pkt) w' /\
    reply_is pkt Offer /\
    get (Opts pkt) 12 = None.
Proof.
  eexists. eexists. split; [vm_compute; reflexivity|].
  split; vm_compute; reflexivity.
Qed.

End PXEExamples.

(** ** Addresses as numbers *)

Lemma byte_at v k n :
  0 <= k ->
  Z.testbit (Z.shiftl (Z.land (Z.shiftr v k) 255) k) n =
  (k <=? n) && (n <? k + 8) && Z.testbit v n.
Proof.
  intros Hk. destruct (Z.ltb_spec n 0) as [Hn|Hn].
  - rewrite Z.testbit_neg_r by lia.
    destruct (Z.leb_spec k n); [lia|reflexivity].
  - rewrite Z.shiftl_spec by lia. rewrite Z.land_spec.
    change 255 with (Z.ones 8).
    destruct (Z.leb_spec k n) as [Hkn|Hkn].
    + rewrite Z.shiftr_spec by lia. rewrite Z.testbit_ones by lia.
      replace (n - k + k) with n by lia.
      destruct (Z.leb_spec 0 (n - k)); [|lia].
      destruct (Z.ltb_spec (n - k) 8), (Z.ltb_spec n (k + 8)); try lia;
        simpl; rewrite ?andb_true_r, ?andb_false_r; reflexivity.
    + rewrite (Z.testbit_neg_r _ (n - k)) by lia. reflexivity.
Qed.

Lemma high_bits_zero v n : 0 <= v < 2 ^ 32 -> 32 <= n -> Z.testbit v n = false.
Proof.
  intros Hv Hn. destruct (Z.eq_dec v 0) as [->|Hnz].
  - apply Z.bits_0.
  - apply Z.bits_above_log2; [lia|].
    assert (Z.log2 v < 32) by (apply Z.log2_lt_pow2; lia). lia.
Qed.

(** Reading back the four bytes [PutUint32] wrote. *)
Lemma Uint32_PutUint32 v :
  0 <= v < 2 ^ 32 -> Net.Uint32 (Net.PutUint32 v) = Some v.
Proof.
  intros Hv. unfold Net.PutUint32, Net.Uint32. f_equal.
  apply Z.bits_inj'. intros n Hn.
  rewrite !Z.lor_spec.
  rewrite (byte_at v 24), (byte_at v 16), (byte_at v 8) by lia.
  rewrite <- (Z.shiftl_0_r (Z.land v 255)).
  rewrite <- (Z.shiftr_0_r v) at 4.
  rewrite (byte_at v 0) by lia.
  destruct (Z.ltb_spec n 32) as [H32|H32].
  - destruct (Z.leb_spec 24 n), (Z.ltb_spec n (24 + 8)),
      (Z.leb_spec 16 n), (Z.ltb_spec n (16 + 8)),
      (Z.leb_spec 8 n), (Z.ltb_spec n (8 + 8)),
      (Z.leb_spec 0 n), (Z.ltb_spec n (0 + 8)); try lia;
      simpl; rewrite ?orb_false_r; reflexivity.
  - rewrite (high_bits_zero v n Hv H32). now rewrite !andb_false_r.
Qed.

Lemma ip_num_PutUint32 v :
  0 <= v < 2 ^ 32 -> Props.ip_num (Net.PutUint32 v) = Some v.
Proof. intros Hv. unfold Props.ip_num. exact (Uint32_PutUint32 v Hv). Qed.

(** ** The allocator *)

Section Allocator.

Import Datasource Props.

Variable ds : EtcdDataSource.

Lemma Assign_find_unknown nic machines :
  (forall node, In node machines -> Net.HardwareAddr_String (Mac node) <> nic) ->
  forall keys w r w',
    Assign_find ds nic machines keys w = Ok r w' ->
    exists keys', r = inr keys'.
Proof.
  induction machines as [|node rest IH]; intros Hnone keys w r w' H.
  - apply ret_Ok in H. destruct H as [<- _]. now exists keys.
  - simpl in H.
    assert (E : String.eqb (Net.HardwareAddr_String (Mac node)) nic = false).
    { apply String.eqb_neq. apply Hnone. now left. }
    rewrite E in H.
    apply bind_Ok in H. destruct H as [[nodeIP e] [w1 [_ H]]].
    apply (IH (fun n Hn => Hnone n (or_intror Hn)) _ _ _ _ H).
Qed.

(** The scan hands back nil, or [leaseStart + j] for an index [j] of the
    rounds it ran; its error is always nil. *)
Lemma Assign_scan_range nic keys fuel :
  forall i w ip err w',
    Assign_scan ds nic keys fuel i w = Ok (ip, err) w' ->
    err = None /\
    (ip = [] \/
     exists j, i <= j < i + Z.of_nat fuel /\
               Dhcp4.IPAdd (LeaseStart ds) j = Some ip).
Proof.
  induction fuel as [|fuel IH]; intros i w ip err w' H.
  - apply ret_Ok in H. destruct H as [H _]. injection H as <- <-.
    split; [reflexivity|now left].
  - cbn [Assign_scan] in H.
    apply bind_Ok in H. destruct H as [ip0 [w1 [Hadd H]]].
    apply must_Ok in Hadd. destruct Hadd as [Hadd ->].
    destruct (negb (mem (Net.IP_String ip0) keys)).
    + apply bind_Ok in H. destruct H as [created [w2 [_ H]]].
      apply ret_Ok in H. destruct H as [H _]. injection H as <- <-.
      split; [reflexivity|]. right. exists i. split; [lia|exact Hadd].
    + destruct (IH _ _ _ _ _ H) as [He [Hnil|[j [Hj Hip]]]].
      * split; [exact He|now left].
      * split; [exact He|]. right. exists j. split; [lia|exact Hip].
Qed.

(** [Assign] never returns an error. *)
Lemma Assign_err_nil nic w ip err w' :
  Assign ds nic w = Ok (ip, err) w' -> err = None.
Proof.
  unfold Assign. intros H.
  apply bind_Ok in H. destruct H as [[machines e] [w1 [_ H]]].
  apply bind_Ok in H. destruct H as [r [w2 [_ H]]].
  destruct r as [ip0|keys].
  - apply ret_Ok in H. destruct H as [H _]. now injection H as <- <-.
  - exact (proj1 (Assign_scan_range _ _ _ _ _ _ _ _ H)).
Qed.

Lemma Request_find_inl nic currentIP machines :
  forall macExists ipExists w ip w',
    Request_find ds nic currentIP machines macExists ipExists w = Ok (inl ip) w' ->
    ip = currentIP.
Proof.
  induction machines as [|node rest IH]; intros macExists ipExists w ip w' H.
  - apply ret_Ok in H. destruct H as [H _]. discriminate.
  - simpl in H.
    apply bind_Ok in H. destruct H as [[thisNodeIP e] [w1 [_ H]]].
    match type of H with
    | (if ?c then _ else _) _ = _ => destruct c
    end.
    + apply bind_Ok in H. destruct H as [u [w2 [_ H]]].
      apply ret_Ok in H. destruct H as [H _]. now injection H as <-.
    + exact (IH _ _ _ _ _ H).
Qed.

(** C4, as amended.  An address that [Assign] allocates for a hardware
    address its snapshot does not hold lies in
    [[leaseStart, leaseStart + leaseRange)], the range ending by
    255.255.255.255; an address that [Request] returns is the requested
    address itself, whatever it is. *)
Theorem allocator_pool_bound nic currentIP w s :
  ip_num (leaseStart ds) = Some s ->
  0 <= s ->
  s + leaseRange ds <= 2 ^ 32 ->
  (forall ip err w',
     Assign ds nic w = Ok (ip, err) w' ->
     ~ known ds nic w -> ip <> [] -> in_pool ds ip) /\
  (forall ip w',
     Request ds nic currentIP w = Ok (ip, None) w' -> ip = currentIP).
Proof.
  intros Hs Hs0 Hend. split.
  - intros ip err w' H Hunknown Hip.
    unfold Assign in H.
    apply bind_Ok in H. destruct H as [[machines e] [w1 [Hm H]]].
    apply bind_Ok in H. destruct H as [r [w2 [Hfind H]]].
    assert (Hnone : forall node, In node machines ->
                      Net.HardwareAddr_String (Mac node) <> nic).
    { intros node Hin Heq. apply Hunknown.
      exists machines, e, w1, node. repeat split; assumption. }
    destruct (Assign_find_unknown nic machines Hnone _ _ _ _ Hfind) as [keys ->].
    destruct (Assign_scan_range _ _ _ _ _ _ _ _ H) as [_ [Hnil|[j [Hj Hadd]]]];
      [contradiction|].
    unfold Dhcp4.IPAdd, LeaseStart in Hadd.
    unfold ip_num in Hs. rewrite Hs in Hadd. injection Hadd as <-.
    assert (Hr : 0 <= Z.of_nat (Z.to_nat (LeaseRange ds)) <= Z.max 0 (leaseRange ds)).
    { unfold LeaseRange. lia. }
    exists s, (s + j). split; [exact Hs|].
    rewrite Z.mod_small by lia.
    split; [apply ip_num_PutUint32; lia|lia].
  - intros ip w' H. unfold Request in H.
    apply bind_Ok in H. destruct H as [[machines e] [w1 [_ H]]].
    apply bind_Ok in H. destruct H as [r [w2 [Hfind H]]].
    destruct r as [ip0|[macExists ipExists]].
    + apply ret_Ok in H. destruct H as [H _]. injection H as <-.
      exact (Request_find_inl _ _ _ _ _ _ _ _ Hfind).
    + destruct (ipExists || macExists).
      * apply ret_Ok in H. destruct H as [H _]. discriminate.
      * apply bind_Ok in H. destruct H as [created [w3 [_ H]]].
        apply ret_Ok in H. destruct H as [H _]. now injection H as <-.
Qed.

End Allocator.

(** The scan that finds every address of its rounds in use ends with
    [nil, nil]: a nil address and no error. *)
Lemma Assign_scan_exhausted ds nic keys fuel :
  forall i w,
    (forall j, i <= j < i + Z.of_nat fuel ->
       exists ip, Dhcp4.IPAdd (Datasource.LeaseStart ds) j = Some ip /\
                  Datasource.mem (Net.IP_String ip) keys = true) ->
    Datasource.Assign_scan ds nic keys fuel i w = Ok ([], None) w.
Proof.
  induction fuel as [|fuel IH]; intros i w Hall; [reflexivity|].
  cbn [Datasource.Assign_scan].
  destruct (Hall i ltac:(lia)) as [ip [Hadd Hmem]].
  unfold bind at 1. rewrite Hadd. simpl. rewrite Hmem. simpl.
  apply IH. intros j Hj. apply Hall. lia.
Qed.

Section AllocatorExamples.

Import Datasource Props Scenario.

(** The first Discover of the scenario: 10.0.0.10 out of the empty pool. *)
Lemma allocator_pool_bound_witness : in_pool ds [10; 0; 0; 10].
Proof.
  apply (proj1 (allocator_pool_bound ds nic1 [10; 0; 0; 10] w0 167772170
                  eq_refl ltac:(lia) ltac:(vm_compute; discriminate))
               [10; 0; 0; 10] None (world_of (Assign ds nic1 w0) w0)).
  - vm_compute. reflexivity.
  - intros [machines [e [w1 [node [Hm [Hin _]]]]]].
    vm_compute in Hm. injection Hm as <- _ _. exact Hin.
  - discriminate.
Defined.

(** C4, the claim as stated fails: a Request from a hardware address the
    registry does not hold, for 10.0.0.50, returns 10.0.0.50, outside the
    pool 10.0.0.10 to 10.0.0.13. *)
Lemma request_outside_pool :
  exists w',
    Request ds "ff:ff:ff:00:00:01" [10; 0; 0; 50] w0 = Ok ([10; 0; 0; 50], None) w' /\
    ~ in_pool ds [10; 0; 0; 50].
Proof.
  eexists. split; [vm_compute; reflexivity|].
  intros [s [v [Hs [Hv Hr]]]].
  vm_compute in Hs. vm_compute in Hv.
  injection Hs as <-. injection Hv as <-.
  change (leaseRange ds) with 4 in Hr. lia.
Qed.

End AllocatorExamples.

(** ** A zero-length option 97 *)

Section Totality.

Import Packet DHCP Props Scenario.

(** C10, the code at the failing input: a Discover whose option 97 is
    present and empty makes the handler panic at [guidVal[1:]], whatever
    the registry holds. *)
Theorem discover_empty_guid_panics h v p options w :
  snd (DNSAddresses h) = None ->
  get options 97 = Some [] ->
  ServeDHCP h v p Discover options w = Panic.
Proof.
  intros Hdns H97. unfold ServeDHCP.
  destruct (DNSAddresses h) as [dns e]. simpl in Hdns. subst e.
  unfold bind at 1.
  destruct (Datasource.Assign (datasource h)
              (Net.HardwareAddr_String (CHAddr p)) w) as [[ip err] w1|] eqn:E;
    [|reflexivity].
  apply Assign_err_nil in E. subst err.
  unfold bind at 1. unfold addPXE. rewrite H97. reflexivity.
Qed.

Lemma discover_empty_guid_panics_witness :
  ServeDHCP (handler ds) 5 (from mac2) Discover [(97, [])] w0 = Panic.
Proof.
  apply discover_empty_guid_panics; reflexivity.
Defined.

End Totality.

(** ** The registry read back *)

Section Registry.

Import Datasource Props Scenario.

(** C1, the code at the failing input.  [Machines] hands the whole entry
    name, ["node"] included, to [addColonToMacAddress]: for every
    six-byte hardware address the text it gets back starts with [no:de:]
    and [ParseMAC] refuses it; so listing the registry right after
    [CreateMachine] for aa:bb:cc:dd:ee:01 gives the error and no node. *)
Theorem Machines_loses_created_node :
  (forall b0 b1 b2 b3 b4 b5,
     exists s,
       addColonToMacAddress (Name (mkMachine [b0; b1; b2; b3; b4; b5])) = Some s /\
       Net.ParseMAC s = None) /\
  value_of ((CreateMachine ds mac1 [10; 0; 0; 10] ;;; Machines ds) w0)
    = Some ([], Some "invalid MAC address").
Proof.
  split.
  - intros b0 b1 b2 b3 b4 b5. rewrite Name_hex.
    eexists. split; [reflexivity|]. reflexivity.
  - vm_compute. reflexivity.
Qed.

(** C2, the code at the failing input.  A first Request binds
    aa:bb:cc:dd:ee:01 to 10.0.0.10 (the node's [_IP] is in the store); the
    same hardware address then asking for 10.0.0.42, and another hardware
    address asking for 10.0.0.10, are both answered with the requested
    address and no error. *)
Theorem Request_after_binding_no_conflict :
  value_of ((Request ds nic1 [10; 0; 0; 10] ;;;
             Get ds "machines/nodeaabbccddee01/_IP") w0)
    = Some ("10.0.0.10", None) /\
  value_of ((Request ds nic1 [10; 0; 0; 10] ;;;
             Request ds nic1 [10; 0; 0; 42]) w0)
    = Some ([10; 0; 0; 42], None) /\
  value_of ((Request ds nic1 [10; 0; 0; 10] ;;;
             Request ds nic2 [10; 0; 0; 10]) w0)
    = Some ([10; 0; 0; 10], None).
Proof. repeat split; vm_compute; reflexivity. Qed.

(** C3, the code at the failing input.  With a pool of one address, the
    Discover of aa:bb:cc:dd:ee:01 takes 10.0.0.10; the Discover of
    aa:bb:cc:dd:ee:02 that follows is answered with an Offer of 10.0.0.10
    again.  With a pool of no address [Assign] returns the nil address and
    no error, and the Offer goes out for 0.0.0.0. *)
Theorem full_pool_still_offers :
  (exists pkt w',
     (DHCP.ServeDHCP (handler ds1) 5 (from mac1) Packet.Discover [] ;;;
      DHCP.ServeDHCP (handler ds1) 6 (from mac2) Packet.Discover []) w0
       = Ok (Some pkt) w' /\
     reply_is pkt Packet.Offer /\ Packet.YIAddr pkt = [10; 0; 0; 10]) /\
  value_of (Assign (mkDS [10; 0; 0; 10] 0 "blacksmith") nic1 w0) = Some ([], None) /\
  (exists pkt w',
     DHCP.ServeDHCP (handler (mkDS [10; 0; 0; 10] 0 "blacksmith")) 5 (from mac1)
       Packet.Discover [] w0 = Ok (Some pkt) w' /\
     reply_is pkt Packet.Offer /\ Packet.YIAddr pkt = [0; 0; 0; 0]).
Proof.
  split; [|split].
  - eexists. eexists. split; [vm_compute; reflexivity|].
    split; vm_compute; reflexivity.
  - vm_compute. reflexivity.
  - eexists. eexists. split; [vm_compute; reflexivity|].
    split; vm_compute; reflexivity.
Qed.

(** C5, the code at the failing input.  From the empty registry with the
    pool starting at 10.0.0.10, the first hardware address to call [Assign]
    gets 10.0.0.10, and so does the second one, which the claim gives
    10.0.0.11; no node is created for the second. *)
Theorem second_mac_gets_first_address :
  value_of (Assign ds nic1 w0) = Some ([10; 0; 0; 10], None) /\
  value_of ((Assign ds nic1 ;;; Assign ds nic2) w0) = Some ([10; 0; 0; 10], None) /\
  value_of ((Assign ds nic1 ;;; Assign ds nic2 ;;;
             Get ds "machines/nodeaabbccddee02/_IP") w0)
    = Some ("", Some "Key not found").
Proof. repeat split; vm_compute; reflexivity. Qed.

(** C8, the code at the failing input.  After [CreateMachine] for
    aa:bb:cc:dd:ee:01 and 10.0.0.10 the store holds ["10.0.0.10"] under
    [machines/nodeaabbccddee01/_IP], and [IP] on that node fails: it reads
    [nodeaabbccddee01/IP], which nothing wrote.  Were the dotted quad under
    the key it reads, [ParseCIDR] would refuse it all the same; only a
    value with a prefix length is read. *)
Theorem IP_does_not_read_back :
  value_of ((CreateMachine ds mac1 [10; 0; 0; 10] ;;;
             Get ds "machines/nodeaabbccddee01/_IP") w0)
    = Some ("10.0.0.10", None) /\
  value_of ((CreateMachine ds mac1 [10; 0; 0; 10] ;;;
             IP ds (mkMachine mac1)) w0)
    = Some ([], Some "Key not found") /\
  value_of (IP ds (mkMachine mac1)
              (mkWorld [(["blacksmith"; "nodeaabbccddee01"; "IP"],
                         Etcd.Leaf "10.0.0.10")] 0))
    = Some ([], Some "invalid CIDR address") /\
  option_map Net.IP_String
    (option_map fst (value_of (IP ds (mkMachine mac1)
              (mkWorld [(["blacksmith"; "nodeaabbccddee01"; "IP"],
                         Etcd.Leaf "10.0.0.10/24")] 0))))
    = Some "10.0.0.10".
Proof. repeat split; vm_compute; reflexivity. Qed.

End Registry.

(** ** What does read back: the hex digits alone *)

Section HexPortion.

Import Datasource Props.

Lemma hex_value_hexDigit x :
  0 <= x < 16 -> Net.hex_value (Net.hexDigit x) = Some x.
Proof.
  intros Hx.
  assert (H : x = 0 \/ x = 1 \/ x = 2 \/ x = 3 \/ x = 4 \/ x = 5 \/ x = 6 \/
              x = 7 \/ x = 8 \/ x = 9 \/ x = 10 \/ x = 11 \/ x = 12 \/
              x = 13 \/ x = 14 \/ x = 15) by lia.
  repeat (destruct H as [->|H]; [reflexivity|]). subst x. reflexivity.
Qed.

Lemma nibbles b : 0 <= b < 256 ->
  0 <= Z.shiftr b 4 < 16 /\ 0 <= Z.land b 15 < 16 /\
  16 * Z.shiftr b 4 + Z.land b 15 = b.
Proof.
  intros Hb. rewrite Z.shiftr_div_pow2 by lia.
  change 15 with (Z.ones 4). rewrite Z.land_ones by lia.
  change (2 ^ 4) with 16.
  pose proof (Z.div_mod b 16 ltac:(lia)).
  pose proof (Z.mod_pos_bound b 16 ltac:(lia)).
  assert (0 <= b / 16 < 16).
  { split; [apply Z.div_pos; lia|apply Z.div_lt_upper_bound; lia]. }
  lia.
Qed.

(** [xtoi2] on the two digits [hex_pair] wrote, a colon or nothing next. *)
Lemma xtoi2_hex_pair b rest :
  0 <= b < 256 ->
  match rest with
  | EmptyString => True
  | String c _ => c = ":"%char
  end ->
  Net.xtoi2 (Net.hex_pair b ++ rest) ":" = Some b.
Proof.
  intros Hb Hrest. destruct (nibbles b Hb) as [Hhi [Hlo Hsum]].
  unfold Net.hex_pair, Net.xtoi2. cbn [append].
  rewrite (hex_value_hexDigit _ Hhi), (hex_value_hexDigit _ Hlo).
  destruct rest as [|c rest']; [now rewrite Hsum|].
  subst c. cbn [Ascii.eqb Bool.eqb]. now rewrite Hsum.
Qed.

Lemma substring_all s : substring 0 (String.length s) s = s.
Proof.
  induction s as [|c s IH]; cbn [String.length substring]; [reflexivity|].
  now rewrite IH.
Qed.

Lemma drop3_hex_pair b s :
  Net.drop_str 3 (Net.hex_pair b ++ ":" ++ s) = s.
Proof.
  unfold Net.drop_str, Net.hex_pair.
  change (substring 0 (String.length s - 0) s = s).
  rewrite Nat.sub_0_r. apply substring_all.
Qed.

Lemma parse_groups3_S n s sep :
  Net.parse_groups3 (S n) s sep =
  match Net.xtoi2 s sep with
  | None => None
  | Some b =>
      match Net.parse_groups3 n (Net.drop_str 3 s) sep with
      | None => None
      | Some bs => Some (b :: bs)
      end
  end.
Proof. reflexivity. Qed.

(** The group loop of [ParseMAC] reads back what [HardwareAddr.String]
    wrote. *)
Lemma parse_groups3_String (m : Net.HardwareAddr) :
  is_bytes m ->
  Net.parse_groups3 (List.length m) (Net.HardwareAddr_String m) ":" = Some m.
Proof.
  induction m as [|b rest IH]; intros Hm; [reflexivity|].
  inversion Hm as [|x l Hb Hrest]; subst.
  destruct rest as [|b' rest'].
  - cbn [List.length Net.parse_groups3 Net.HardwareAddr_String].
    rewrite <- (append_empty_r (Net.hex_pair b)) at 1.
    rewrite (xtoi2_hex_pair b "" Hb I). reflexivity.
  - change (Net.HardwareAddr_String (b :: b' :: rest'))
      with (Net.hex_pair b ++ ":" ++ Net.HardwareAddr_String (b' :: rest'))%string.
    change (List.length (b :: b' :: rest')) with (S (List.length (b' :: rest'))).
    rewrite parse_groups3_S.
    rewrite (xtoi2_hex_pair b (":" ++ Net.HardwareAddr_String (b' :: rest')) Hb eq_refl).
    rewrite drop3_hex_pair.
    rewrite (IH Hrest). reflexivity.
Qed.

(** The part of the reverse mapping that holds: colons put back into the
    twelve hex digits of a six-byte hardware address give its text, and
    that text parses back to the address. *)
Lemma hex_portion_parses_back b0 b1 b2 b3 b4 b5 :
  is_bytes [b0; b1; b2; b3; b4; b5] ->
  addColonToMacAddress (hex_mac [b0; b1; b2; b3; b4; b5])
    = Some (Net.HardwareAddr_String [b0; b1; b2; b3; b4; b5]) /\
  Net.ParseMAC (Net.HardwareAddr_String [b0; b1; b2; b3; b4; b5])
    = Some [b0; b1; b2; b3; b4; b5].
Proof.
  intros Hm. split; [reflexivity|].
  pose proof (parse_groups3_String _ Hm) as Hp.
  unfold Net.ParseMAC.
  change (Go.len (Net.HardwareAddr_String [b0; b1; b2; b3; b4; b5])) with 17.
  change (get 2 (Net.HardwareAddr_String [b0; b1; b2; b3; b4; b5]))
    with (Some ":"%char).
  change (get 4 (Net.HardwareAddr_String [b0; b1; b2; b3; b4; b5]))
    with (Some (Net.hexDigit (Z.land b1 15))).
  cbn -[Net.parse_groups3 Net.HardwareAddr_String].
  exact Hp.
Qed.

End HexPortion.

(** * Further properties of the registry *)

(** ** The store: what was put is found *)

Lemma key_eqb_refl k : Etcd.key_eqb k k = true.
Proof. unfold Etcd.key_eqb. destruct (list_eq_dec string_dec k k); congruence. Qed.

Lemma key_eqb_true a b : Etcd.key_eqb a b = true -> a = b.
Proof.
  unfold Etcd.key_eqb. destruct (list_eq_dec string_dec a b); [auto|discriminate].
Qed.

Lemma lookup_put_same st k e : Etcd.lookup (Etcd.put st k e) k = Some e.
Proof.
  induction st as [|[k' e'] st IH]; simpl.
  - now rewrite key_eqb_refl.
  - destruct (Etcd.key_eqb k' k) eqn:E; simpl.
    + now rewrite key_eqb_refl.
    + now rewrite E.
Qed.

Lemma lookup_remove_same st k : Etcd.lookup (Accessors.remove st k) k = None.
Proof.
  unfold Accessors.remove.
  induction st as [|[k' e'] st IH]; simpl; [reflexivity|].
  destruct (Etcd.key_eqb k' k) eqn:E; simpl; [exact IH|].
  now rewrite E.
Qed.

(** A [Set] that reports no error leaves the value under the key. *)
Lemma Etcd_Set_stored st path e st' :
  Etcd.Set_ st path e = (st', None) ->
  Etcd.key_of path <> [] /\ Etcd.lookup st' (Etcd.key_of path) = Some e.
Proof.
  unfold Etcd.Set_. destruct (Etcd.key_of path) as [|x k] eqn:Ek; [discriminate|].
  destruct (existsb _ _); [discriminate|].
  destruct (Etcd.lookup st (x :: k)) as [[|v]|];
    try discriminate; intros H; injection H as <-;
    (split; [discriminate|apply lookup_put_same]).
Qed.


Lemma Etcd_Get_leaf st path v :
  Etcd.key_of path <> [] ->
  Etcd.lookup st (Etcd.key_of path) = Some (Etcd.Leaf v) ->
  exists resp, Etcd.Get st path = inr resp /\
               Etcd.NodeValue (Etcd.RespNode resp) = v.
Proof.
  unfold Etcd.Get. cbv zeta.
  destruct (Etcd.key_of path) as [|x k]; intros Hk Hl; [contradiction|].
  rewrite Hl. eexists. split; reflexivity.
Qed.

Lemma Etcd_Get_absent st path :
  Etcd.key_of path <> [] ->
  Etcd.lookup st (Etcd.key_of path) = None ->
  Etcd.Get st path = inl "Key not found".
Proof.
  unfold Etcd.Get. cbv zeta.
  destruct (Etcd.key_of path) as [|x k]; intros Hk Hl; [contradiction|].
  now rewrite Hl.
Qed.

Lemma world_eta w : mkWorld (store w) (clock w) = w.
Proof. now destruct w. Qed.

Section StoreRoundTrip.

Import Datasource Accessors.

Variable ds : EtcdDataSource.

Lemma Set_Ok key value w err w' :
  Set_ ds key value w = Ok err w' ->
  Etcd.Set_ (store w) (prefixify ds key) (Etcd.Leaf value) = (store w', err) /\
  clock w' = clock w.
Proof.
  unfold Set_, etcdSet.
  destruct (Etcd.Set_ (store w) (prefixify ds key) (Etcd.Leaf value)) as [st e].
  intros H. injection H as <- <-. split; reflexivity.
Qed.

Lemma Get_found key v w :
  Etcd.key_of (prefixify ds key) <> [] ->
  Etcd.lookup (store w) (Etcd.key_of (prefixify ds key)) = Some (Etcd.Leaf v) ->
  Get ds key w = Ok (v, None) w.
Proof.
  intros Hk Hl. unfold Get, bind, etcdGet.
  destruct (Etcd_Get_leaf _ _ _ Hk Hl) as [resp [-> Hv]].
  unfold ret. now rewrite Hv.
Qed.

Lemma Get_missing key w :
  Etcd.key_of (prefixify ds key) <> [] ->
  Etcd.lookup (store w) (Etcd.key_of (prefixify ds key)) = None ->
  Get ds key w = Ok ("", Some "Key not found") w.
Proof.
  intros Hk Hl. unfold Get, bind, etcdGet.
  now rewrite (Etcd_Get_absent _ _ Hk Hl).
Qed.


End StoreRoundTrip.

(** ** Flags, deletion and what the readers leave alone *)

Section Flags.

Import Datasource Accessors.

Variable ds : EtcdDataSource.

Lemma Delete_Ok key w err w' :
  Delete ds key w = Ok err w' ->
  etcd_Delete (store w) (prefixify ds key) = (store w', err) /\
  clock w' = clock w.
Proof.
  unfold Delete, etcdDelete.
  destruct (etcd_Delete (store w) (prefixify ds key)) as [st e].
  intros H. injection H as <- <-. split; reflexivity.
Qed.

Lemma etcd_Delete_done st path st' :
  etcd_Delete st path = (st', None) ->
  Etcd.key_of path <> [] /\ Etcd.lookup st' (Etcd.key_of path) = None.
Proof.
  unfold etcd_Delete. cbv zeta.
  destruct (Etcd.key_of path) as [|x k]; [discriminate|].
  destruct (Etcd.lookup st (x :: k)) as [[|v]|]; try discriminate.
  intros H. injection H as <-. split; [discriminate|apply lookup_remove_same].
Qed.


(** [Get] only reads. *)
Lemma Get_reads key w r w' : Get ds key w = Ok r w' -> w' = w.
Proof.
  unfold Get, bind, etcdGet.
  destruct (Etcd.Get (store w) (prefixify ds key)); intros H;
    apply ret_Ok in H; now destruct H.
Qed.

(** X2.  The life of a flag: a [SetFlag] that reports no error is read back
    by [GetFlag]; [GetAndDeleteFlag] then returns the value and no error,
    and the flag is gone afterwards: [GetFlag] answers "Key not found". *)
Theorem flag_set_get_delete m key value w w1 :
  SetFlag ds m key value w = Ok None w1 ->
  GetFlag ds m key w1 = Ok (value, None) w1 /\
  exists w2,
    GetAndDeleteFlag ds m key w1 = Ok (value, None) w2 /\
    GetFlag ds m key w2 = Ok ("", Some "Key not found") w2.
Proof.
  unfold SetFlag, selfSet, GetFlag, selfGet. intros H.
  apply Set_Ok in H. destruct H as [Hs Hc].
  destruct (Etcd_Set_stored _ _ _ _ Hs) as [Hk Hl].
  pose proof (Get_found ds _ _ w1 Hk Hl) as Hget.
  split; [exact Hget|].
  unfold GetAndDeleteFlag, GetFlag, selfGet, DeleteFlag, selfDelete.
  unfold bind at 1. rewrite Hget.
  destruct (Delete ds (mprefixify m key) w1) as [err w2|] eqn:Hd;
    [|unfold Delete, etcdDelete in Hd;
      destruct (etcd_Delete (store w1) (prefixify ds (mprefixify m key)));
      discriminate].
  pose proof (Delete_Ok _ _ _ _ Hd) as [Hdel _].
  assert (err = None) as ->.
  { revert Hdel. unfold etcd_Delete. cbv zeta. revert Hk Hl.
    destruct (Etcd.key_of (prefixify ds (mprefixify m key))) as [|x k];
      intros Hk Hl; [contradiction|].
    rewrite Hl. intros H. now injection H. }
  exists w2. unfold bind. rewrite Hd. split; [reflexivity|].
  destruct (etcd_Delete_done _ _ _ Hdel) as [Hk' Hl'].
  exact (Get_missing ds _ w2 Hk' Hl').
Qed.



Lemma IP_reads m w r w' : IP ds m w = Ok r w' -> w' = w.
Proof.
  unfold IP, selfGet. intros H.
  apply bind_Ok in H. destruct H as [[s e] [w1 [Hget H]]].
  pose proof (Get_reads _ _ _ _ Hget) as ->.
  destruct e as [e|]; [apply ret_Ok in H; now destruct H|].
  destruct (Net.ParseCIDR s); apply ret_Ok in H; now destruct H.
Qed.

Lemma GetMachine_reads mac w r w' : GetMachine ds mac w = Ok r w' -> w' = w.
Proof.
  unfold GetMachine. intros H.
  apply bind_Ok in H. destruct H as [g [w1 [Hg H]]].
  unfold etcdGet in Hg. injection Hg as <- <-.
  destruct (Etcd.Get _ _) as [e|resp]; [apply ret_Ok in H; now destruct H|].
  apply bind_Ok in H. destruct H as [last [w2 [Hm H]]].
  apply must_Ok in Hm. destruct Hm as [_ ->].
  destruct (String.eqb last _); apply ret_Ok in H; now destruct H.
Qed.

Lemma Machines_loop_reads ents :
  forall acc w r w', Machines_loop ds ents acc w = Ok r w' -> w' = w.
Proof.
  induction ents as [|ent rest IH]; intros acc w r w' H.
  - apply ret_Ok in H. now destruct H.
  - cbn [Machines_loop] in H.
    apply bind_Ok in H. destruct H as [name [w1 [Hn H]]].
    apply must_Ok in Hn. destruct Hn as [_ ->].
    apply bind_Ok in H. destruct H as [macStr [w2 [Hc H]]].
    apply must_Ok in Hc. destruct Hc as [_ ->].
    destruct (Net.ParseMAC macStr) as [macAddr|];
      [|apply ret_Ok in H; now destruct H].
    apply bind_Ok in H. destruct H as [found [w3 [Hg H]]].
    apply GetMachine_reads in Hg. subst w3.
    destruct found as [machine|]; [|apply ret_Ok in H; now destruct H].
    exact (IH _ _ _ _ H).
Qed.

Lemma Machines_reads w r w' : Machines ds w = Ok r w' -> w' = w.
Proof.
  unfold Machines. intros H.
  apply bind_Ok in H. destruct H as [g [w1 [Hg H]]].
  unfold etcdGet in Hg. injection Hg as <- <-.
  destruct (Etcd.Get _ _) as [e|resp]; [apply ret_Ok in H; now destruct H|].
  exact (Machines_loop_reads _ _ _ _ _ H).
Qed.

(** X5.  The readers of the registry write nothing: after [Machines],
    [GetMachine] and [IP] the store and the clock are what they were. *)
Theorem readers_leave_the_world w :
  (forall r w', Machines ds w = Ok r w' -> w' = w) /\
  (forall mac r w', GetMachine ds mac w = Ok r w' -> w' = w) /\
  (forall m r w', IP ds m w = Ok r w' -> w' = w).
Proof.
  split; [|split].
  - intros r w'. apply Machines_reads.
  - intros mac r w'. apply GetMachine_reads.
  - intros m r w'. apply IP_reads.
Qed.

Lemma CreateMachine_taken_reads machines mac ip :
  forall w r w', CreateMachine_taken ds machines mac ip w = Ok r w' -> w' = w.
Proof.
  induction machines as [|node rest IH]; intros w r w' H.
  - apply ret_Ok in H. now destruct H.
  - cbn [CreateMachine_taken] in H.
    destruct (String.eqb _ _); [apply ret_Ok in H; now destruct H|].
    apply bind_Ok in H. destruct H as [[nodeip e] [w1 [Hip H]]].
    apply IP_reads in Hip. subst w1.
    destruct e as [e|]; [apply ret_Ok in H; now destruct H|].
    destruct (String.eqb _ _); [apply ret_Ok in H; now destruct H|].
    exact (IH _ _ _ H).
Qed.

(** X6.  A [CreateMachine] that refuses ([nil, false]) has written nothing,
    it refuses whenever [Machines] reports an error, and the handle of one
    that succeeds is the hardware address it was given. *)
Theorem CreateMachine_refusal mac ip w :
  (forall w', CreateMachine ds mac ip w = Ok None w' -> w' = w) /\
  (forall ms e, Machines ds w = Ok (ms, Some e) w ->
                CreateMachine ds mac ip w = Ok None w) /\
  (forall m w', CreateMachine ds mac ip w = Ok (Some m) w' -> Mac m = mac).
Proof.
  split; [|split].
  - intros w' H. unfold CreateMachine in H.
    apply bind_Ok in H. destruct H as [[ms e] [w1 [Hm H]]].
    apply Machines_reads in Hm. subst w1.
    destruct e as [e|]; [apply ret_Ok in H; now destruct H|].
    apply bind_Ok in H. destruct H as [taken [w2 [Ht H]]].
    apply CreateMachine_taken_reads in Ht. subst w2.
    destruct taken; [apply ret_Ok in H; now destruct H|].
    repeat (apply bind_Ok in H; destruct H as [? [? [_ H]]]).
    apply ret_Ok in H. destruct H as [H _]. discriminate.
  - intros ms e Hm. unfold CreateMachine, bind. now rewrite Hm.
  - intros m w' H. unfold CreateMachine in H.
    apply bind_Ok in H. destruct H as [[ms e] [w1 [_ H]]].
    destruct e as [e|]; [apply ret_Ok in H; destruct H; discriminate|].
    apply bind_Ok in H. destruct H as [taken [w2 [_ H]]].
    destruct taken; [apply ret_Ok in H; destruct H; discriminate|].
    repeat (apply bind_Ok in H; destruct H as [? [? [_ H]]]).
    apply ret_Ok in H. destruct H as [H _]. now injection H as <-.
Qed.

End Flags.

(** ** Names and hardware addresses *)

Section Names.

Import Datasource Props.

Lemma str_slice_at s i :
  0 <= i -> i + 1 <= Go.len s ->
  Go.str_slice s i (i + 1) = Some (substring (Z.to_nat i) 1 s).
Proof.
  intros H0 H1. unfold Go.str_slice.
  destruct (Z.leb_spec 0 i); [|lia].
  destruct (Z.leb_spec i (i + 1)); [|lia].
  destruct (Z.leb_spec (i + 1) (Go.len s)); [|lia].
  simpl. replace (i + 1 - i) with 1 by lia. reflexivity.
Qed.

(** The two cases of [addColonToMacAddress]: too short, and long enough. *)
Lemma addColon_cases :
  (forall s, (String.length s < 12)%nat -> addColonToMacAddress s = None) /\
  (forall c0 c1 c2 c3 c4 c5 c6 c7 c8 c9 c10 c11 rest,
     addColonToMacAddress
       (String c0 (String c1 (String c2 (String c3 (String c4 (String c5
       (String c6 (String c7 (String c8 (String c9 (String c10 (String c11
        rest))))))))))))
     = Some
       (String c0 (String c1 (String ":" (String c2 (String c3 (String ":"
       (String c4 (String c5 (String ":" (String c6 (String c7 (String ":"
       (String c8 (String c9 (String ":" (String c10 (String c11
        EmptyString)))))))))))))))))).
Proof.
  split.
  - intros s.
    do 12 (destruct s as [|? s]; [intros _; vm_compute; reflexivity|]).
    simpl. lia.
  - intros c0 c1 c2 c3 c4 c5 c6 c7 c8 c9 c10 c11 rest.
    destruct rest as [|c12 rest]; [vm_compute; reflexivity|].
    set (s := String c0 (String c1 (String c2 (String c3 (String c4 (String c5
              (String c6 (String c7 (String c8 (String c9 (String c10 (String c11
               (String c12 rest))))))))))))).
    assert (Hlen : 12 <= Go.len s).
    { subst s. unfold Go.len. cbn [String.length]. lia. }
    unfold addColonToMacAddress.
    do 12 (cbn [addColon_loop]; rewrite str_slice_at by lia).
    cbn [addColon_loop]. subst s. vm_compute. reflexivity.
Qed.

(** X7.  [addColonToMacAddress] panics on fewer than twelve bytes; on
    twelve or more it returns the first twelve in pairs with colons between
    and takes no notice of what follows. *)
Theorem addColonToMacAddress_bounds :
  (forall s, (String.length s < 12)%nat -> addColonToMacAddress s = None) /\
  (forall c0 c1 c2 c3 c4 c5 c6 c7 c8 c9 c10 c11 rest,
     addColonToMacAddress
       (String c0 (String c1 (String c2 (String c3 (String c4 (String c5
       (String c6 (String c7 (String c8 (String c9 (String c10 (String c11
        rest))))))))))))
     = Some
       (String c0 (String c1 (String ":" (String c2 (String c3 (String ":"
       (String c4 (String c5 (String ":" (String c6 (String c7 (String ":"
       (String c8 (String c9 (String ":" (String c10 (String c11
        EmptyString)))))))))))))))))).
Proof. exact addColon_cases. Qed.

Lemma hex_pair_inj b1 b2 :
  0 <= b1 < 256 -> 0 <= b2 < 256 ->
  Net.hex_pair b1 = Net.hex_pair b2 -> b1 = b2.
Proof.
  intros H1 H2 E. unfold Net.hex_pair in E. injection E as Ehi Elo.
  destruct (nibbles b1 H1) as [Hh1 [Hl1 S1]].
  destruct (nibbles b2 H2) as [Hh2 [Hl2 S2]].
  assert (Some (Z.shiftr b1 4) = Some (Z.shiftr b2 4)) as Eh.
  { rewrite <- (hex_value_hexDigit _ Hh1), <- (hex_value_hexDigit _ Hh2).
    now rewrite Ehi. }
  assert (Some (Z.land b1 15) = Some (Z.land b2 15)) as El.
  { rewrite <- (hex_value_hexDigit _ Hl1), <- (hex_value_hexDigit _ Hl2).
    now rewrite Elo. }
  injection Eh as Eh. injection El as El. lia.
Qed.

Lemma hexString_inj m1 :
  forall m2, is_bytes m1 -> is_bytes m2 ->
             Net.hexString m1 = Net.hexString m2 -> m1 = m2.
Proof.
  induction m1 as [|b1 r1 IH]; intros [|b2 r2] H1 H2 E;
    try reflexivity; try discriminate E.
  inversion H1 as [|x l Hb1 Hr1]; subst.
  inversion H2 as [|x l Hb2 Hr2]; subst.
  cbn [Net.hexString fold_right] in E.
  unfold Net.hex_pair in E. cbn [append] in E.
  injection E as Ehi Elo Erest.
  f_equal.
  - apply hex_pair_inj; try assumption. unfold Net.hex_pair. now rewrite Ehi, Elo.
  - apply IH; assumption.
Qed.

(** X8.  Two hardware addresses with the same node name are the same
    address: the directory of a node is its own. *)
Theorem Name_injective m1 m2 :
  is_bytes (Mac m1) -> is_bytes (Mac m2) ->
  Name m1 = Name m2 -> m1 = m2.
Proof.
  intros H1 H2 E. rewrite !Name_hex in E. injection E as E.
  destruct m1 as [a1], m2 as [a2]. simpl in *.
  f_equal. exact (hexString_inj a1 a2 H1 H2 E).
Qed.

(** X9.  The reverse mapping on the hex digits: what follows ["node"] in
    the name of a six-byte hardware address, handed to
    [addColonToMacAddress], is the text of the address and parses back to
    it. *)
Theorem name_hex_digits_round_trip b0 b1 b2 b3 b4 b5 :
  is_bytes [b0; b1; b2; b3; b4; b5] ->
  exists digits text,
    Go.str_from (Name (mkMachine [b0; b1; b2; b3; b4; b5])) 4 = Some digits /\
    addColonToMacAddress digits = Some text /\
    text = Net.HardwareAddr_String [b0; b1; b2; b3; b4; b5] /\
    Net.ParseMAC text = Some [b0; b1; b2; b3; b4; b5].
Proof.
  intros Hm.
  destruct (hex_portion_parses_back b0 b1 b2 b3 b4 b5 Hm) as [Hc Hp].
  exists (hex_mac [b0; b1; b2; b3; b4; b5]),
         (Net.HardwareAddr_String [b0; b1; b2; b3; b4; b5]).
  split; [rewrite Name_hex; reflexivity|].
  split; [exact Hc|]. split; [reflexivity|exact Hp].
Qed.

End Names.

(** ** Timestamps *)

Section Timestamps.

Import Accessors.

Lemma dtoi_acc_digit c k rest acc :
  Z.of_N (N_of_ascii c) = 48 + k -> 0 <= k <= 9 ->
  Net.dtoi_acc (String c rest) acc = Net.dtoi_acc rest (10 * acc + k).
Proof.
  intros Hc Hk. cbn [Net.dtoi_acc]. cbv zeta. rewrite Hc.
  destruct (Z.leb_spec 48 (48 + k)); [|lia].
  destruct (Z.leb_spec (48 + k) 57); [|lia].
  cbn [andb]. f_equal. lia.
Qed.

Lemma dtoi_acc_uint d :
  forall acc,
    Net.dtoi_acc (NilEmpty.string_of_uint d) (Z.pos acc)
    = Some (Z.pos (Pos.of_uint_acc d acc)).
Proof.
  induction d as [|d IHd|d IHd|d IHd|d IHd|d IHd|d IHd|d IHd|d IHd|d IHd|d IHd];
    intros acc; [reflexivity|..];
    cbn [NilEmpty.string_of_uint Pos.of_uint_acc]; rewrite <- IHd.
  - rewrite (dtoi_acc_digit _ 0) by (try reflexivity; lia). f_equal; lia.
  - rewrite (dtoi_acc_digit _ 1) by (try reflexivity; lia). f_equal; lia.
  - rewrite (dtoi_acc_digit _ 2) by (try reflexivity; lia). f_equal; lia.
  - rewrite (dtoi_acc_digit _ 3) by (try reflexivity; lia). f_equal; lia.
  - rewrite (dtoi_acc_digit _ 4) by (try reflexivity; lia). f_equal; lia.
  - rewrite (dtoi_acc_digit _ 5) by (try reflexivity; lia). f_equal; lia.
  - rewrite (dtoi_acc_digit _ 6) by (try reflexivity; lia). f_equal; lia.
  - rewrite (dtoi_acc_digit _ 7) by (try reflexivity; lia). f_equal; lia.
  - rewrite (dtoi_acc_digit _ 8) by (try reflexivity; lia). f_equal; lia.
  - rewrite (dtoi_acc_digit _ 9) by (try reflexivity; lia). f_equal; lia.
Qed.

Lemma dtoi_acc_uint0 d :
  Net.dtoi_acc (NilEmpty.string_of_uint d) 0 = Some (Z.of_N (Pos.of_uint d)).
Proof.
  induction d as [|d IHd|d IHd|d IHd|d IHd|d IHd|d IHd|d IHd|d IHd|d IHd|d IHd];
    [reflexivity|..];
    cbn [NilEmpty.string_of_uint Pos.of_uint Z.of_N].
  - rewrite (dtoi_acc_digit _ 0) by (try reflexivity; lia). exact IHd.
  - rewrite (dtoi_acc_digit _ 1) by (try reflexivity; lia). apply dtoi_acc_uint.
  - rewrite (dtoi_acc_digit _ 2) by (try reflexivity; lia). apply dtoi_acc_uint.
  - rewrite (dtoi_acc_digit _ 3) by (try reflexivity; lia). apply dtoi_acc_uint.
  - rewrite (dtoi_acc_digit _ 4) by (try reflexivity; lia). apply dtoi_acc_uint.
  - rewrite (dtoi_acc_digit _ 5) by (try reflexivity; lia). apply dtoi_acc_uint.
  - rewrite (dtoi_acc_digit _ 6) by (try reflexivity; lia). apply dtoi_acc_uint.
  - rewrite (dtoi_acc_digit _ 7) by (try reflexivity; lia). apply dtoi_acc_uint.
  - rewrite (dtoi_acc_digit _ 8) by (try reflexivity; lia). apply dtoi_acc_uint.
  - rewrite (dtoi_acc_digit _ 9) by (try reflexivity; lia). apply dtoi_acc_uint.
Qed.

(** Decimal digits written by [FormatInt] read back. *)
Lemma dtoi_itoa n : 0 <= n -> Net.dtoi (Go.itoa n) = Some n.
Proof.
  intros Hn. unfold Go.itoa.
  pose proof (DecimalN.Unsigned.of_to (Z.to_N n)) as Hof.
  assert (Hnn : N.to_uint (Z.to_N n) <> Decimal.Nil).
  { destruct (Z.to_N n); [discriminate|apply DecimalPos.Unsigned.to_uint_nonnil]. }
  pose proof (dtoi_acc_uint0 (N.to_uint (Z.to_N n))) as H0.
  unfold N.of_uint in Hof. rewrite Hof in H0. rewrite Z2N.id in H0 by lia.
  destruct (N.to_uint (Z.to_N n)) eqn:E; try contradiction;
    unfold NilZero.string_of_uint, Net.dtoi; exact H0.
Qed.

(** X10.  Timestamps: the decimal text [CreateMachine] and [store] write
    for a clock value reads back with [unixNanoStringToTime] as that value,
    without touching the clock; text that is no number gives the current
    time and an error. *)
Theorem unixNanoStringToTime_round_trip n s w :
  (0 <= n < 2 ^ 63 ->
   unixNanoStringToTime (Go.itoa n) w = Ok (n, None) w) /\
  (Strconv.ParseInt s = None ->
   exists e, unixNanoStringToTime s w
             = Ok (clock w, Some e) (mkWorld (store w) (clock w + 1))).
Proof.
  split.
  - intros Hn. unfold unixNanoStringToTime, Strconv.ParseInt.
    pose proof (dtoi_itoa n ltac:(lia)) as Hd.
    destruct (Go.itoa n) as [|c rest] eqn:E; [discriminate Hd|].
    assert (Hc : Ascii.eqb c "+" || Ascii.eqb c "-" = false).
    { unfold Net.dtoi in Hd. cbn [Net.dtoi_acc] in Hd. cbv zeta in Hd.
      destruct ((48 <=? Z.of_N (N_of_ascii c)) && (Z.of_N (N_of_ascii c) <=? 57)) eqn:Er;
        [|discriminate Hd].
      destruct (Ascii.eqb c "+") eqn:Ep;
        [apply Ascii.eqb_eq in Ep; subst c; discriminate Er|].
      destruct (Ascii.eqb c "-") eqn:Em;
        [apply Ascii.eqb_eq in Em; subst c; discriminate Er|].
      reflexivity. }
    apply orb_false_elim in Hc. destruct Hc as [Hp Hm].
    rewrite Hp, Hm. cbn [orb]. rewrite Hd.
    destruct (Z.ltb_spec n (2 ^ 63)); [reflexivity|lia].
  - intros Hs. unfold unixNanoStringToTime. rewrite Hs.
    eexists. reflexivity.
Qed.

End Timestamps.

(** * Further properties of the handler *)

Section Handler.

Import Packet DHCP Props Notions.

Lemma YIAddr_fold options p :
  YIAddr (fold_left (fun q o => AddOption q (fst o) (snd o)) options p) = YIAddr p.
Proof.
  revert p. induction options as [|o rest IH]; intros p; simpl; [reflexivity|].
  now rewrite IH.
Qed.

Lemma YIAddr_ReplyPacket req mt sid y d options :
  YIAddr (ReplyPacket req mt sid y d options) = addr4 y.
Proof.
  unfold ReplyPacket. rewrite YIAddr_fold. destruct (0 <? d); reflexivity.
Qed.

Lemma addPXE_YIAddr h options packet packet' w w' :
  addPXE h options packet w = Ok packet' w' -> YIAddr packet' = YIAddr packet.
Proof.
  unfold addPXE. destruct (get options 97) as [[|b guid]|]; simpl;
    try discriminate; intros H; apply ret_Ok in H; destruct H as [<- _];
    reflexivity.
Qed.

Lemma addr4_four ip : List.length ip = 4%nat -> addr4 ip = ip.
Proof.
  destruct ip as [|a [|b [|c [|d [|e r]]]]]; try discriminate. reflexivity.
Qed.


(** X12.  The lease time on the wire: every Offer and Ack carries option
    51 with the four big-endian bytes of [3600 * n] seconds for a whole
    number of hours [24 <= n < 48]. *)
Theorem lease_option_in_reply h v p mt options w pkt w' :
  ServeDHCP h v p mt options w = Ok (Some pkt) w' ->
  reply_is pkt Offer \/ reply_is pkt ACK ->
  exists n, 24 <= n < 48 /\
            get (Opts pkt) OptionIPAddressLeaseTime = Some (Net.PutUint32 (3600 * n)).
Proof.
  intros Hrun Htype.
  destruct (ServeDHCP_reply _ _ _ _ _ _ _ _ Hrun) as [ro [Hro Hcase]].
  assert (Hlease : exists n, 24 <= n < 48 /\
            OptionsLeaseTime (randLeaseDuration v) = Net.PutUint32 (3600 * n)).
  { destruct (lease_hours v) as [n [E Hn]]. exists n. split; [exact Hn|].
    unfold OptionsLeaseTime. rewrite E. unfold Hour.
    replace (n * (3600 * Second)) with (3600 * n * Second) by ring.
    rewrite Z.div_mul by (unfold Second; lia).
    rewrite Z.mod_small by lia. reflexivity. }
  destruct Hlease as [n [Hn E]]. exists n. split; [exact Hn|].
  unfold reply_is in Htype.
  destruct Hcase as [[_ [tail [Ht Ho]]]|[[_ Ho]|[_ [tail [Ht Ho]]]]]; rewrite Ho.
  - rewrite get_app. unfold reply_head. cbn [get]. cbn. now rewrite E.
  - exfalso. rewrite Ho in Htype. destruct Htype as [H|H]; discriminate H.
  - rewrite get_app. unfold reply_head. cbn [get]. cbn. now rewrite E.
Qed.

(** X13.  A client that sends no option 97 gets none of the PXE options:
    no option 60, 97 or 43 in any reply. *)
Theorem no_pxe_options_without_guid h v p mt options w pkt w' :
  ServeDHCP h v p mt options w = Ok (Some pkt) w' ->
  get options 97 = None ->
  get (Opts pkt) 60 = None /\ get (Opts pkt) 97 = None /\ get (Opts pkt) 43 = None.
Proof.
  intros Hrun H97.
  destruct (ServeDHCP_reply _ _ _ _ _ _ _ _ Hrun) as [ro [Hro Hcase]].
  assert (Htail : forall tail, pxe_tail h options = Some tail -> tail = []).
  { intros tail. unfold pxe_tail. rewrite H97. intros H. now injection H. }
  destruct Hcase as [[_ [tail [Ht Ho]]]|[[_ Ho]|[_ [tail [Ht Ho]]]]]; rewrite Ho.
  - rewrite (Htail _ Ht), app_nil_r.
    repeat split; rewrite get_app, get_reply_head by lia;
      apply (get_configured ro _ Hro); lia.
  - repeat split; reflexivity.
  - rewrite (Htail _ Ht). cbn [app].
    repeat split; rewrite get_app, get_reply_head by lia;
      rewrite get_app, (get_configured ro _ Hro) by lia; reflexivity.
Qed.

(** X14.  The address offered: the [yiaddr] of an Offer is the address
    [Assign] returned for the client (0.0.0.0 when that is nil); the
    [yiaddr] of an Ack is the requested address, option 50 or else
    [ciaddr], which has four bytes and is not 0.0.0.0. *)
Theorem reply_yiaddr h v p mt options w pkt w' :
  ServeDHCP h v p mt options w = Ok (Some pkt) w' ->
  (mt = Discover ->
   exists ip w1,
     Datasource.Assign (datasource h) (Net.HardwareAddr_String (CHAddr p)) w
       = Ok (ip, None) w1 /\
     YIAddr pkt = addr4 ip) /\
  (reply_is pkt ACK ->
   YIAddr pkt = requested p options /\
   List.length (requested p options) = 4%nat /\
   Net.Equal (requested p options) Net.IPv4zero = false).
Proof.
  intros Hrun.
  destruct (ServeDHCP_reply _ _ _ _ _ _ _ _ Hrun) as [ro [_ Hcase]].
  revert Hrun. unfold ServeDHCP.
  destruct (DNSAddresses h) as [dns [e|]]; [discriminate|].
  destruct mt; try (intros H; apply ret_Ok in H; destruct H; discriminate).
  - (* Discover *)
    intros H.
    apply bind_Ok in H. destruct H as [[ip err] [w1 [Ha H]]].
    pose proof (Assign_err_nil _ _ _ _ _ _ Ha) as ->.
    apply bind_Ok in H. destruct H as [packet [w2 [Hpxe H]]].
    apply ret_Ok in H. destruct H as [H _]. injection H as <-.
    apply addPXE_YIAddr in Hpxe. rewrite YIAddr_ReplyPacket in Hpxe.
    destruct Hcase as [[_ [tail [_ Ho]]]|[[Hd _]|[Hd _]]]; try discriminate Hd.
    unfold reply_is. rewrite Ho, !get_app, get_reply_head_type.
    split; [intros _; exists ip, w1; split; [exact Ha|exact Hpxe]|].
    discriminate.
  - (* Request *)
    intros H. cbv zeta in H.
    change (match get options OptionRequestedIPAddress with
            | Some ip => ip
            | None => CIAddr p
            end) with (requested p options) in H.
    destruct (match get options OptionServerIdentifier with
              | Some server => negb (Net.Equal server (ServerIP (settings h)))
              | None => false
              end); [apply ret_Ok in H; destruct H; discriminate|].
    destruct (negb (List.length (requested p options) =? 4)%nat) eqn:El;
      [apply ret_Ok in H; destruct H; discriminate|].
    destruct (Net.Equal (requested p options) Net.IPv4zero) eqn:Ez;
      [apply ret_Ok in H; destruct H; discriminate|].
    cbn [orb] in H.
    apply negb_false_iff, Nat.eqb_eq in El.
    apply bind_Ok in H. destruct H as [[ip err] [w1 [_ H]]].
    split; [discriminate|].
    unfold reply_is.
    destruct err as [e|].
    + apply ret_Ok in H. destruct H as [H _]. injection H as <-.
      rewrite Opts_ReplyPacket. discriminate.
    + apply bind_Ok in H. destruct H as [packet [w2 [Hpxe H]]].
      apply ret_Ok in H. destruct H as [H _]. injection H as <-.
      pose proof (addPXE_YIAddr _ _ _ _ _ _ Hpxe) as Hy.
      rewrite YIAddr_ReplyPacket, (addr4_four _ El) in Hy.
      intros _. cbn [YIAddr AddOption].
      split; [exact Hy|split; [exact El|reflexivity]].
Qed.

End Handler.

Section Selection.

Import Packet DHCP Props Notions.

Lemma get_SelectOrder (o : Options) order c :
  get (SelectOrder o order) c =
  if existsb (Z.eqb c) order then get o c else None.
Proof.
  induction order as [|x rest IH]; [reflexivity|].
  cbn [SelectOrder existsb].
  destruct (Z.eqb_spec c x) as [->|Hne].
  - cbn [orb]. destruct (get o x) as [data|] eqn:E.
    + cbn [get]. now rewrite Z.eqb_refl.
    + rewrite IH. now destruct (existsb (Z.eqb x) rest).
  - cbn [orb]. destruct (get o x) as [data|] eqn:E; [|exact IH].
    cbn [get]. destruct (Z.eqb_spec x c) as [->|_]; [contradiction|exact IH].
Qed.

Lemma get_SelectOrderOrAll (o : Options) options c :
  get (SelectOrderOrAll o (get options OptionParameterRequestList)) c =
  if wanted options c then get o c else None.
Proof.
  unfold SelectOrderOrAll, wanted.
  destruct (get options OptionParameterRequestList) as [order|];
    [apply get_SelectOrder|reflexivity].
Qed.

(** The options of an Offer or Ack, with the selected part spelled out. *)
Lemma ServeDHCP_reply_selected h v p mt options w pkt w' :
  ServeDHCP h v p mt options w = Ok (Some pkt) w' ->
  reply_is pkt Offer \/ reply_is pkt ACK ->
  exists mt' rest,
    Opts pkt = reply_head h v mt' ++
               SelectOrderOrAll (configured h) (get options OptionParameterRequestList)
               ++ rest /\
    (forall c, c = 1 \/ c = 3 \/ c = 6 -> get rest c = None).
Proof.
  intros Hrun Htype.
  destruct (ServeDHCP_reply _ _ _ _ _ _ _ _ Hrun) as [ro [_ Hcase]].
  assert (Hrest : forall tail c, pxe_tail h options = Some tail ->
            c = 1 \/ c = 3 \/ c = 6 -> get tail c = None).
  { intros tail c Ht Hc. apply (get_pxe_tail_other h options tail c Ht); lia. }
  revert Hrun. unfold ServeDHCP, configured.
  destruct (DNSAddresses h) as [dns [e|]]; [discriminate|].
  cbn [fst].
  set (cfg := match RouterAddr (settings h) with
              | [] => _
              | _ => _
              end).
  destruct mt; try (intros H; apply ret_Ok in H; destruct H; discriminate).
  - intros H.
    apply bind_Ok in H. destruct H as [[ip err] [w1 [Ha H]]].
    pose proof (Assign_err_nil _ _ _ _ _ _ Ha) as ->.
    apply bind_Ok in H. destruct H as [packet [w2 [Hpxe H]]].
    apply ret_Ok in H. destruct H as [H _]. injection H as <-.
    apply addPXE_Opts in Hpxe. destruct Hpxe as [tail [Ht [Ho _]]].
    exists Offer, tail. split; [|intros c Hc; exact (Hrest tail c Ht Hc)].
    rewrite Ho, Opts_ReplyPacket, randLeaseDuration_pos.
    unfold reply_head. cbn [app]. reflexivity.
  - intros H.
    destruct (match get options OptionServerIdentifier with
              | Some server => negb (Net.Equal server (ServerIP (settings h)))
              | None => false
              end); [apply ret_Ok in H; destruct H; discriminate|].
    match type of H with
    | (if ?c then _ else _) _ = _ => destruct c
    end; [apply ret_Ok in H; destruct H; discriminate|].
    apply bind_Ok in H. destruct H as [[ip err] [w1 [_ H]]].
    destruct err as [e|].
    + exfalso. apply ret_Ok in H. destruct H as [H _]. injection H as <-.
      unfold reply_is in Htype. rewrite Opts_ReplyPacket in Htype.
      destruct Htype as [Hty|Hty]; discriminate Hty.
    + apply bind_Ok in H. destruct H as [packet [w2 [Hpxe H]]].
      apply ret_Ok in H. destruct H as [H _]. injection H as <-.
      apply addPXE_Opts in Hpxe. destruct Hpxe as [tail [Ht [Ho _]]].
      eexists ACK, (tail ++ [(12, _)]). split.
      * cbn [Opts AddOption]. rewrite Ho, Opts_ReplyPacket, randLeaseDuration_pos.
        unfold reply_head. cbn [app]. rewrite <- !app_assoc. reflexivity.
      * intros c Hc. rewrite get_app, (Hrest tail c Ht Hc).
        cbn [get]. destruct (Z.eqb_spec 12 c); [lia|reflexivity].
Qed.

(** X15.  What the parameter request list selects: in every Offer and Ack
    the subnet mask (1), the DNS servers (6) and the router (3) are present
    exactly when the client listed them in option 55, or sent no option 55
    at all; the router, besides, only when one is configured.  Nothing is
    added for being mandatory. *)
Theorem parameter_request_list_selects h v p mt options w pkt w' :
  ServeDHCP h v p mt options w = Ok (Some pkt) w' ->
  reply_is pkt Offer \/ reply_is pkt ACK ->
  get (Opts pkt) OptionSubnetMask =
    (if wanted options 1 then Some (Net.To4 (SubnetMask (settings h))) else None) /\
  get (Opts pkt) OptionDomainNameServer =
    (if wanted options 6 then Some (fst (DNSAddresses h)) else None) /\
  get (Opts pkt) OptionRouter =
    (if wanted options 3
     then match RouterAddr (settings h) with
          | [] => None
          | _ => Some (Net.To4 (RouterAddr (settings h)))
          end
     else None).
Proof.
  intros Hrun Htype.
  destruct (ServeDHCP_reply_selected _ _ _ _ _ _ _ _ Hrun Htype)
    as [mt' [rest [Ho Hrest]]].
  rewrite Ho. unfold OptionSubnetMask, OptionDomainNameServer, OptionRouter.
  repeat split;
    rewrite get_app, get_reply_head by lia;
    rewrite get_app, get_SelectOrderOrAll, Hrest by lia.
  - destruct (wanted options 1); [|reflexivity].
    unfold configured. destruct (RouterAddr (settings h)); reflexivity.
  - destruct (wanted options 6); [|reflexivity].
    unfold configured. destruct (RouterAddr (settings h)); reflexivity.
  - destruct (wanted options 3); [|reflexivity].
    unfold configured. destruct (RouterAddr (settings h)); reflexivity.
Qed.

Lemma bytes_of_string_bytes s : is_bytes (Go.bytes_of_string s).
Proof.
  unfold is_bytes, Go.bytes_of_string.
  induction s as [|c s IH]; simpl; constructor; [|exact IH].
  pose proof (N_ascii_bounded c). lia.
Qed.

Lemma To4_bytes ip : is_bytes ip -> is_bytes (Net.To4 ip).
Proof.
  unfold is_bytes, Net.To4. intros H.
  destruct (List.length ip =? 4)%nat; [exact H|].
  destruct (_ && _); [|constructor].
  rewrite Forall_forall in *. intros x Hx. apply H.
  rewrite <- (firstn_skipn 12 ip). apply in_or_app. now right.
Qed.

Lemma bytes_of_string_length s :
  Z.of_nat (List.length (Go.bytes_of_string s)) = Go.len s.
Proof.
  unfold Go.bytes_of_string, Go.len. rewrite length_map. f_equal.
  induction s as [|c s IH]; simpl; [reflexivity|now rewrite IH].
Qed.

(** X16.  The PXE blob is always a byte string, however long the boot
    message: seventeen bytes of framing, the bytes of the server address
    ([To4], none when it is not IPv4) and the boot message twice, its two
    length bytes taken modulo 256. *)
Theorem fillPXE_is_bytes h :
  is_bytes (ServerIP (settings h)) ->
  is_bytes (fillPXE h) /\
  Z.of_nat (List.length (fillPXE h)) =
    17 + Z.of_nat (List.length (Net.To4 (ServerIP (settings h))))
    + 2 * Go.len (bootMessage h).
Proof.
  intros Hip. split.
  - unfold fillPXE, is_bytes. cbn [app].
    pose proof (To4_bytes _ Hip) as H4.
    pose proof (bytes_of_string_bytes (bootMessage h)) as Hm.
    pose proof (Z.mod_pos_bound (3 + Go.len (bootMessage h)) 256 ltac:(lia)).
    pose proof (Z.mod_pos_bound (1 + Go.len (bootMessage h)) 256 ltac:(lia)).
    unfold is_bytes in *. unfold Go.to_byte.
    repeat (apply Forall_cons; [lia|]).
    repeat (apply Forall_app; split); try assumption;
      repeat (apply Forall_cons; [lia|]); try apply Forall_nil.
  - unfold fillPXE. cbn [app].
    repeat (rewrite ?length_app; cbn [List.length]).
    pose proof (bytes_of_string_length (bootMessage h)). lia.
Qed.

End Selection.

(** * The address of the interface *)

Section Interface.

Import Main Notions.

Lemma To4_length ip : Net.To4 ip = [] \/ List.length (Net.To4 ip) = 4%nat.
Proof.
  unfold Net.To4. destruct (Nat.eqb_spec (List.length ip) 4) as [E|_]; [now right|].
  destruct (Nat.eqb_spec (List.length ip) 16) as [E|_]; [|now left].
  cbn [andb]. destruct (Net.bytes_eqb _ _); [|now left].
  right. rewrite length_skipn, E. reflexivity.
Qed.

Lemma firstAddr_found f addrs ip :
  firstAddr f addrs = Some ip ->
  f ip = true /\ ip <> [] /\
  exists a mask, In (IPNet a mask) addrs /\ Net.To4 a = ip.
Proof.
  induction addrs as [|[a mask|] rest IH]; [discriminate| |].
  - cbn [firstAddr]. destruct (Net.To4 a) as [|b t] eqn:E.
    + intros H. destruct (IH H) as [Hf [Hn [a' [m' [Hin Ht]]]]].
      repeat split; try assumption. exists a', m'. split; [now right|exact Ht].
    + destruct (f (b :: t)) eqn:Ef.
      * intros H. injection H as <-. repeat split; [exact Ef|discriminate|].
        exists a, mask. split; [now left|exact E].
      * intros H. destruct (IH H) as [Hf [Hn [a' [m' [Hin Ht]]]]].
        repeat split; try assumption. exists a', m'. split; [now right|exact Ht].
  - cbn [firstAddr]. intros H. destruct (IH H) as [Hf [Hn [a' [m' [Hin Ht]]]]].
    repeat split; try assumption. exists a', m'. split; [now right|exact Ht].
Qed.

Lemma firstAddr_none f addrs :
  firstAddr f addrs = None -> ~ has f addrs.
Proof.
  induction addrs as [|[a mask|] rest IH]; intros H [a' [m' [Hin [Hn Hf]]]].
  - contradiction.
  - cbn [firstAddr] in H. destruct Hin as [Heq|Hin].
    + injection Heq as -> ->. destruct (Net.To4 a') as [|b t]; [contradiction|].
      rewrite Hf in H. discriminate.
    + apply IH; [|exists a', m'; repeat split; assumption].
      destruct (Net.To4 a) as [|b t]; [exact H|].
      destruct (f (b :: t)); [discriminate|exact H].
  - cbn [firstAddr] in H. destruct Hin as [Heq|Hin]; [discriminate|].
    apply IH; [exact H|exists a', m'; repeat split; assumption].
Qed.

(** X17.  [interfaceIP]: the address chosen is the four-byte form of an
    [IPNet] address of the interface, a global unicast one if the interface
    has any, else a link-local one if it has any, else a loopback one,
    whatever the order of the list; the error comes exactly when the
    interface has no IPv4 address of the three classes. *)
Theorem interfaceIP_priority addrs ip err :
  interfaceIP (addrs, None) = (ip, err) ->
  (err = None ->
     List.length ip = 4%nat /\
     (exists a mask, In (IPNet a mask) addrs /\ Net.To4 a = ip) /\
     (IsGlobalUnicast ip = true \/
      (~ has IsGlobalUnicast addrs /\ IsLinkLocalUnicast ip = true) \/
      (~ has IsGlobalUnicast addrs /\ ~ has IsLinkLocalUnicast addrs /\
       IsLoopback ip = true))) /\
  (err <> None ->
     ip = [] /\ ~ has IsGlobalUnicast addrs /\
     ~ has IsLinkLocalUnicast addrs /\ ~ has IsLoopback addrs).
Proof.
  unfold interfaceIP. cbn [firstByClass].
  assert (Hlen : forall f x, firstAddr f addrs = Some x -> List.length x = 4%nat).
  { intros f x H. destruct (firstAddr_found _ _ _ H) as [_ [Hn [a [m [_ Ht]]]]].
    destruct (To4_length a) as [E|E]; rewrite Ht in E; [contradiction|exact E]. }
  destruct (firstAddr IsGlobalUnicast addrs) as [x|] eqn:Eg.
  - intros H. injection H as <- <-. split; [|congruence]. intros _.
    destruct (firstAddr_found _ _ _ Eg) as [Hf [_ Hin]].
    split; [exact (Hlen _ _ Eg)|]. split; [exact Hin|now left].
  - pose proof (firstAddr_none _ _ Eg) as Hng.
    destruct (firstAddr IsLinkLocalUnicast addrs) as [x|] eqn:El.
    + intros H. injection H as <- <-. split; [|congruence]. intros _.
      destruct (firstAddr_found _ _ _ El) as [Hf [_ Hin]].
      split; [exact (Hlen _ _ El)|]. split; [exact Hin|]. right. left. now split.
    + pose proof (firstAddr_none _ _ El) as Hnl.
      destruct (firstAddr IsLoopback addrs) as [x|] eqn:Eo.
      * intros H. injection H as <- <-. split; [|congruence]. intros _.
        destruct (firstAddr_found _ _ _ Eo) as [Hf [_ Hin]].
        split; [exact (Hlen _ _ Eo)|]. split; [exact Hin|].
        right. right. repeat split; assumption.
      * pose proof (firstAddr_none _ _ Eo) as Hno.
        intros H. injection H as <- <-. split; [discriminate|]. intros _.
        repeat split; assumption.
Qed.

End Interface.

(** * The snapshot of the registry is always empty *)

(** ** Splitting and joining paths *)

Section Paths.

Import Notions.

Lemma split_on_app sep a b :
  Go.split_on sep (a ++ String sep b) = Go.split_on sep a ++ Go.split_on sep b.
Proof.
  induction a as [|c a IH]; cbn [append Go.split_on].
  - now rewrite Ascii.eqb_refl.
  - destruct (Ascii.eqb c sep); [now rewrite IH|].
    rewrite IH. destruct (Go.split_on sep a) as [|hd tl] eqn:E;
      [exfalso; exact (split_on_nonempty sep a E)|reflexivity].
Qed.

Lemma split_on_slash_free s :
  slash_free s = true -> Go.split_on "/" s = [s].
Proof.
  induction s as [|c s IH]; [reflexivity|].
  cbn [slash_free Go.split_on]. intros H. apply andb_prop in H.
  destruct H as [Hc Hs]. apply negb_true_iff in Hc. rewrite Hc, (IH Hs).
  reflexivity.
Qed.

Lemma split_on_all_slash_free s :
  Forall (fun e => slash_free e = true) (Go.split_on "/" s).
Proof.
  induction s as [|c s IH]; cbn [Go.split_on]; [repeat constructor|].
  destruct (Ascii.eqb c "/") eqn:Ec; [constructor; [reflexivity|exact IH]|].
  destruct (Go.split_on "/" s) as [|hd tl]; [repeat constructor; cbn; now rewrite Ec|].
  inversion IH as [|x l Hhd Htl]; subst. constructor; [|exact Htl].
  cbn [slash_free]. now rewrite Ec, Hhd.
Qed.

Lemma join_cons sep x y l :
  Go.join sep (x :: y :: l) = (x ++ sep ++ Go.join sep (y :: l))%string.
Proof. reflexivity. Qed.

Lemma append_assoc (a b c : string) : ((a ++ b) ++ c = a ++ (b ++ c))%string.
Proof. induction a as [|x a IH]; cbn [append]; [reflexivity|now rewrite IH]. Qed.

Lemma split_join l :
  l <> [] -> Forall (fun e => slash_free e = true) l ->
  Go.split_on "/" (Go.join "/" l) = l.
Proof.
  induction l as [|x l IH]; [contradiction|]. intros _ H.
  inversion H as [|a b Hx Hl]; subst.
  destruct l as [|y l]; [exact (split_on_slash_free x Hx)|].
  rewrite join_cons. change ("/" ++ Go.join "/" (y :: l))%string
    with (String "/" (Go.join "/" (y :: l))).
  rewrite split_on_app, (split_on_slash_free x Hx), IH by (discriminate || exact Hl).
  reflexivity.
Qed.

Lemma join_snoc l x :
  Go.join "/" (l ++ [x]) =
  match l with
  | [] => x
  | _ => (Go.join "/" l ++ String "/" x)%string
  end.
Proof.
  induction l as [|a l IH]; [reflexivity|].
  destruct l as [|b l]; [reflexivity|].
  change ((a :: b :: l) ++ [x]) with (a :: b :: (l ++ [x])).
  rewrite !join_cons. change (b :: l ++ [x]) with ((b :: l) ++ [x]).
  rewrite IH. now rewrite !append_assoc.
Qed.

(** [path.Clean] works through the elements from left to right. *)
Lemma clean_elems_app r l1 :
  forall l2 stack,
    Go.clean_elems r (l1 ++ l2) stack =
    Go.clean_elems r l2 (rev (Go.clean_elems r l1 stack)).
Proof.
  induction l1 as [|e l1 IH]; intros l2 stack.
  - cbn [app Go.clean_elems]. now rewrite rev_involutive.
  - cbn [app Go.clean_elems].
    destruct (String.eqb e "" || String.eqb e "."); [apply IH|].
    destruct (String.eqb e "..").
    + destruct stack as [|top below]; [destruct r; apply IH|].
      destruct (String.eqb top ".."); apply IH.
    + apply IH.
Qed.

Lemma clean_elems_kept r l :
  forall stack,
    Forall (fun e => slash_free e = true) l ->
    Forall kept stack ->
    Forall kept (Go.clean_elems r l stack).
Proof.
  induction l as [|e l IH]; intros stack Hl Hs.
  - cbn [Go.clean_elems]. now apply Forall_rev.
  - inversion Hl as [|a b He Hl']; subst. cbn [Go.clean_elems].
    destruct (String.eqb e "") eqn:E0; [apply IH; assumption|].
    cbn [orb].
    destruct (String.eqb e "."); [apply IH; assumption|].
    assert (Hk : kept e).
    { split; [|exact He]. intros ->. discriminate E0. }
    destruct (String.eqb e "..").
    + destruct stack as [|top below].
      * destruct r; apply IH; try assumption.
        constructor; [exact Hk|constructor].
      * inversion Hs as [|a b Ht Hb]; subst.
        destruct (String.eqb top ".."); apply IH; try assumption.
        constructor; [exact Hk|assumption].
    + apply IH; [assumption|constructor; assumption].
Qed.

Lemma clean_elems_plain r e stack rest :
  plain e ->
  Go.clean_elems r (e :: rest) stack = Go.clean_elems r rest (e :: stack).
Proof.
  intros [[Hne _] [Hd Hdd]]. cbn [Go.clean_elems].
  destruct (String.eqb_spec e ""); [contradiction|].
  destruct (String.eqb_spec e "."); [contradiction|].
  destruct (String.eqb_spec e ".."); [contradiction|]. reflexivity.
Qed.

Lemma join_kept_nonempty l :
  l <> [] -> Forall kept l -> Go.join "/" l <> "".
Proof.
  destruct l as [|x l]; [contradiction|]. intros _ H.
  inversion H as [|a b [Hx _] Hl]; subst.
  destruct l as [|y l]; [exact Hx|].
  rewrite join_cons. destruct x; [contradiction|discriminate].
Qed.

Lemma filter_kept l :
  Forall kept l -> filter (fun e => negb (String.eqb e "")) l = l.
Proof.
  induction 1 as [|x l [Hx _] Hl IH]; [reflexivity|].
  cbn [filter]. destruct (String.eqb_spec x ""); [contradiction|].
  cbn [negb]. now rewrite IH.
Qed.

Lemma kept_slash_free l :
  Forall kept l -> Forall (fun e => slash_free e = true) l.
Proof. intros H. eapply Forall_impl; [|exact H]. now intros e [_ He]. Qed.

(** The elements of a cleaned path are the elements [path.Clean] kept. *)
Lemma key_of_Clean p :
  let rooted := match p with String "/" _ => true | _ => false end in
  let elems := Go.clean_elems rooted (Go.split_on "/" p) [] in
  elems <> [] -> Etcd.key_of (Go.path_Clean p) = elems.
Proof.
  intros rooted elems Hne.
  assert (Hk : Forall kept elems).
  { apply clean_elems_kept; [apply split_on_all_slash_free|constructor]. }
  pose proof (join_kept_nonempty elems Hne Hk) as Hj.
  unfold Go.path_Clean. fold rooted. fold elems. cbv zeta.
  unfold Etcd.key_of.
  destruct rooted.
  - cbn [append String.eqb].
    change (String "/" (Go.join "/" elems)) with ("" ++ String "/" (Go.join "/" elems))%string.
    rewrite split_on_app, (split_join elems Hne (kept_slash_free _ Hk)).
    cbn [Go.split_on app filter String.eqb negb]. exact (filter_kept _ Hk).
  - destruct (String.eqb_spec (Go.join "/" elems) ""); [contradiction|].
    rewrite (split_join elems Hne (kept_slash_free _ Hk)).
    exact (filter_kept _ Hk).
Qed.

End Paths.

(** ** Where the registry keeps a node, and how its entry is named *)

Section NodeKeys.

Import Datasource Notions.

Lemma plain_machines : plain "machines".
Proof. repeat split; discriminate || reflexivity. Qed.

(** A key under a non-empty prefix: the elements of the prefix, cleaned,
    then the elements of the key. *)
Lemma key_of_Clean_under c dir key :
  let r := match String c dir with String "/" _ => true | _ => false end in
  let elems := Go.clean_elems r (Go.split_on "/" key)
                 (rev (Go.clean_elems r (Go.split_on "/" (String c dir)) [])) in
  elems <> [] ->
  Etcd.key_of (Go.path_Clean (String c dir ++ String "/" key)) = elems.
Proof.
  intros r elems Hne.
  pose proof (key_of_Clean (String c dir ++ String "/" key)) as H.
  cbv zeta in H. rewrite split_on_app, clean_elems_app in H.
  exact (H Hne).
Qed.

Lemma split_machines_name name :
  slash_free name = true ->
  Go.split_on "/" ("machines/" ++ name) = ["machines"; name].
Proof.
  intros H. change ("machines/" ++ name)%string with ("machines" ++ String "/" name)%string.
  rewrite split_on_app, (split_on_slash_free name H). reflexivity.
Qed.

Lemma Clean_machines_name name :
  plain name -> Go.path_Clean ("machines/" ++ name) = ("machines/" ++ name)%string.
Proof.
  intros Hp. pose proof Hp as [[Hne Hsf] _].
  unfold Go.path_Clean. rewrite (split_machines_name name Hsf).
  cbn [append]. rewrite (clean_elems_plain _ _ _ _ plain_machines),
    (clean_elems_plain _ _ _ _ Hp).
  cbn [Go.clean_elems rev app Go.join append String.eqb]. reflexivity.
Qed.

(** The directory of a node is a child of the directory [Machines] lists. *)
Lemma node_key_is_child ds name :
  plain name ->
  Etcd.key_of (prefixify ds (Go.path_Join [("machines/" ++ name)%string])) =
  Etcd.key_of (prefixify ds "/machines") ++ [name].
Proof.
  intros Hp. pose proof Hp as [[Hne Hsf] _].
  pose proof (Clean_machines_name name Hp) as Hclean.
  pose proof (split_machines_name name Hsf) as Hsplit.
  remember ("machines/" ++ name)%string as key1 eqn:Hkey1.
  assert (Hk1 : String.eqb key1 "" = false) by (rewrite Hkey1; reflexivity).
  assert (Hj : Go.path_Join [key1] = key1).
  { unfold Go.path_Join. cbn [filter]. rewrite Hk1. cbn [negb Go.join].
    exact Hclean. }
  rewrite Hj. unfold prefixify, Go.path_Join.
  destruct (etcdDir ds) as [|c dir].
  - cbn [filter]. rewrite Hk1. cbn [String.eqb negb Go.join].
    rewrite Hclean. unfold Etcd.key_of at 1. rewrite Hsplit.
    cbn [filter String.eqb negb]. destruct (String.eqb_spec name ""); [contradiction|].
    reflexivity.
  - cbn [filter]. rewrite Hk1. cbn [String.eqb negb].
    change (Go.join "/" [String c dir; key1])
      with (String c dir ++ String "/" key1)%string.
    change (Go.join "/" [String c dir; "/machines"])
      with (String c dir ++ String "/" "/machines")%string.
    set (r := match String c dir with String "/" _ => true | _ => false end).
    set (S := rev (Go.clean_elems r (Go.split_on "/" (String c dir)) [])).
    assert (E1 : Go.clean_elems r (Go.split_on "/" key1) S
                 = rev ("machines" :: S) ++ [name]).
    { rewrite Hsplit,
        (clean_elems_plain _ _ _ _ plain_machines), (clean_elems_plain _ _ _ _ Hp).
      reflexivity. }
    assert (E0 : Go.clean_elems r (Go.split_on "/" "/machines") S
                 = rev ("machines" :: S)).
    { change (Go.split_on "/" "/machines") with [""; "machines"].
      reflexivity. }
    rewrite (key_of_Clean_under c dir key1),
            (key_of_Clean_under c dir "/machines").
    + fold r. fold S. now rewrite E1, E0.
    + fold r. fold S. rewrite E0. cbn [rev]. intros H.
      apply app_eq_nil in H. destruct H as [_ H]. discriminate.
    + fold r. fold S. rewrite E1. intros H.
      apply app_eq_nil in H. destruct H as [_ H]. discriminate.
Qed.

Lemma machines_key_nonempty ds :
  Etcd.key_of (prefixify ds "/machines") <> [].
Proof.
  unfold prefixify, Go.path_Join.
  destruct (etcdDir ds) as [|c dir].
  - cbn [filter String.eqb negb Go.join].
    change (Etcd.key_of (Go.path_Clean "/machines")) with ["machines"].
    discriminate.
  - cbn [filter String.eqb negb].
    change (Go.join "/" [String c dir; "/machines"])
      with (String c dir ++ String "/" "/machines")%string.
    set (r := match String c dir with String "/" _ => true | _ => false end).
    set (S := rev (Go.clean_elems r (Go.split_on "/" (String c dir)) [])).
    assert (E0 : Go.clean_elems r (Go.split_on "/" "/machines") S
                 = rev ("machines" :: S)).
    { change (Go.split_on "/" "/machines") with [""; "machines"].
      reflexivity. }
    assert (Hne : rev ("machines" :: S) <> []).
    { cbn [rev]. intros H. apply app_eq_nil in H. destruct H as [_ H].
      discriminate. }
    rewrite (key_of_Clean_under c dir "/machines");
      fold r; fold S; rewrite E0; exact Hne.
Qed.

Lemma last_index_app sep a :
  forall b pos found,
    Go.last_index_from sep (a ++ b) pos found =
    Go.last_index_from sep b (pos + Go.len a) (Go.last_index_from sep a pos found).
Proof.
  induction a as [|c a IH]; intros b pos found.
  - cbn [append Go.last_index_from]. unfold Go.len. cbn [String.length].
    now rewrite Z.add_0_r.
  - cbn [append Go.last_index_from]. rewrite IH. f_equal.
    unfold Go.len. cbn [String.length]. lia.
Qed.

Lemma last_index_slash_free b :
  slash_free b = true ->
  forall pos found, Go.last_index_from "/" b pos found = found.
Proof.
  induction b as [|c b IH]; intros H pos found; [reflexivity|].
  cbn [slash_free] in H. apply andb_prop in H. destruct H as [Hc Hb].
  apply negb_true_iff in Hc. cbn [Go.last_index_from]. rewrite Hc.
  exact (IH Hb _ _).
Qed.

Lemma substring_after a b :
  substring (String.length a) (String.length b) (a ++ b) = b.
Proof.
  induction a as [|c a IH]; cbn [String.length append substring];
    [apply substring_all|exact IH].
Qed.

Lemma length_append a b :
  String.length (a ++ b) = (String.length a + String.length b)%nat.
Proof. induction a as [|c a IH]; cbn [String.length append]; [reflexivity|now rewrite IH]. Qed.

(** The last element of a key that ends in [/name]. *)
Lemma lastElem_after_slash pre name :
  slash_free name = true ->
  lastElem (pre ++ String "/" name) = Some name.
Proof.
  intros Hsf. unfold lastElem, Go.LastIndex.
  rewrite last_index_app. cbn [Go.last_index_from Ascii.eqb Bool.eqb].
  rewrite (last_index_slash_free name Hsf).
  unfold Go.str_from.
  assert (Hl : Go.len (pre ++ String "/" name) = Go.len pre + 1 + Go.len name).
  { unfold Go.len. rewrite length_append. cbn [String.length]. lia. }
  assert (H0 : 0 <= Go.len pre /\ 0 <= Go.len name) by (unfold Go.len; lia).
  rewrite Hl.
  destruct (Z.leb_spec 0 (0 + Go.len pre + 1)); [|lia].
  destruct (Z.leb_spec (0 + Go.len pre + 1) (Go.len pre + 1 + Go.len name)); [|lia].
  cbn [andb]. f_equal.
  change (pre ++ String "/" name)%string with (pre ++ ("/" ++ name))%string.
  rewrite <- append_assoc.
  replace (Z.to_nat (0 + Go.len pre + 1)) with (String.length (pre ++ "/")).
  2:{ unfold Go.len. rewrite length_append. cbn [String.length]. lia. }
  replace (String.length ((pre ++ "/") ++ name) - String.length (pre ++ "/"))%nat
    with (String.length name).
  2:{ rewrite (length_append (pre ++ "/")). lia. }
  apply substring_after.
Qed.

Lemma lastElem_path_of K name :
  slash_free name = true ->
  lastElem (Etcd.path_of (K ++ [name])) = Some name.
Proof.
  intros Hsf. unfold Etcd.path_of. rewrite join_snoc.
  destruct K as [|k K].
  - change ("/" ++ name)%string with ("" ++ String "/" name)%string.
    exact (lastElem_after_slash "" name Hsf).
  - rewrite <- append_assoc. exact (lastElem_after_slash _ name Hsf).
Qed.

End NodeKeys.

(** ** The listing holds the node, and the node stops the loop *)

Section EmptySnapshot.

Import Datasource Notions.

Lemma lookup_In st k e : Etcd.lookup st k = Some e -> In (k, e) st.
Proof.
  induction st as [|[k' e'] st IH]; [discriminate|].
  cbn [Etcd.lookup]. destruct (Etcd.key_eqb k' k) eqn:E.
  - intros H. injection H as <-. apply key_eqb_true in E. subst. now left.
  - intros H. right. exact (IH H).
Qed.

Lemma children_In st K x e :
  In (K ++ [x], e) st -> In (Etcd.node_of (K ++ [x]) e) (Etcd.children st K).
Proof.
  induction st as [|[k' e'] st IH]; [contradiction|].
  intros [H|H]; cbn [Etcd.children].
  - injection H as -> ->.
    rewrite length_app. cbn [List.length].
    replace (List.length K + 1)%nat with (S (List.length K)) by lia.
    rewrite Nat.eqb_refl, firstn_app, Nat.sub_diag, firstn_all.
    cbn [firstn]. rewrite app_nil_r, key_eqb_refl. now left.
  - destruct (_ && _); [right|]; exact (IH H).
Qed.

Lemma Etcd_Get_inr st path resp :
  Etcd.Get st path = inr resp ->
  Etcd.key_of path <> [] ->
  exists e, Etcd.lookup st (Etcd.key_of path) = Some e /\
            Etcd.RespNodes resp = Etcd.children st (Etcd.key_of path).
Proof.
  unfold Etcd.Get. cbv zeta.
  destruct (Etcd.key_of path) as [|x k]; intros H Hk; [contradiction|].
  destruct (Etcd.lookup st (x :: k)) as [e|]; [|discriminate].
  injection H as <-. exists e. split; reflexivity.
Qed.

Lemma hexDigit_not_slash n : Ascii.eqb (Net.hexDigit n) "/" = false.
Proof.
  unfold Net.hexDigit. destruct (Z.to_nat n) as [|k]; [reflexivity|].
  do 14 (destruct k as [|k]; [reflexivity|]). reflexivity.
Qed.

Lemma hexString_slash_free m : slash_free (Net.hexString m) = true.
Proof.
  induction m as [|b m IH]; [reflexivity|].
  cbn [Net.hexString fold_right]. unfold Net.hex_pair. cbn [append slash_free].
  rewrite !hexDigit_not_slash. exact IH.
Qed.

Lemma node_name_plain mac :
  plain (nodeNameFromMac (Net.HardwareAddr_String mac)).
Proof.
  rewrite nodeNameFromMac_hex. repeat split; try discriminate.
  cbn [append slash_free Ascii.eqb Bool.eqb negb andb].
  apply hexString_slash_free.
Qed.

(** Whatever follows ["node"], the colons land after [no] and [de]. *)
Lemma node_name_does_not_parse rest text :
  addColonToMacAddress (String "n" (String "o" (String "d" (String "e" rest))))
    = Some text ->
  Net.ParseMAC text = None.
Proof.
  destruct addColon_cases as [Hshort Hlong].
  do 8 (destruct rest as [|? rest];
        [rewrite Hshort by (cbn [String.length]; lia); discriminate|]).
  rewrite Hlong. intros H. injection H as <-. reflexivity.
Qed.

(** The entry of a node in the listing is one the loop cannot get past. *)
Lemma node_entry_refused K mac e :
  refused (Etcd.node_of (K ++ [nodeNameFromMac (Net.HardwareAddr_String mac)]) e).
Proof.
  intros name text Hlast Hcolon.
  assert (Hkey : Etcd.NodeKey
            (Etcd.node_of (K ++ [nodeNameFromMac (Net.HardwareAddr_String mac)]) e)
          = Etcd.path_of (K ++ [nodeNameFromMac (Net.HardwareAddr_String mac)])).
  { destruct e; reflexivity. }
  rewrite Hkey in Hlast.
  destruct (node_name_plain mac) as [[_ Hsf] _].
  rewrite (lastElem_path_of K _ Hsf) in Hlast. injection Hlast as <-.
  rewrite nodeNameFromMac_hex in Hcolon.
  exact (node_name_does_not_parse _ _ Hcolon).
Qed.

(** A listing with such an entry never yields a machine. *)
Lemma Machines_loop_refused ds ents :
  (exists ent, In ent ents /\ refused ent) ->
  forall acc w ms e w',
    Machines_loop ds ents acc w = Ok (ms, e) w' -> ms = [].
Proof.
  induction ents as [|ent rest IH]; intros [bad [Hin Hbad]] acc w ms e w' H;
    [contradiction|].
  cbn [Machines_loop] in H.
  apply bind_Ok in H. destruct H as [name [w1 [Hn H]]].
  apply must_Ok in Hn. destruct Hn as [Hn ->].
  apply bind_Ok in H. destruct H as [text [w2 [Hc H]]].
  apply must_Ok in Hc. destruct Hc as [Hc ->].
  destruct (Net.ParseMAC text) as [macAddr|] eqn:Hp.
  - destruct Hin as [<-|Hin].
    + rewrite (Hbad name text Hn Hc) in Hp. discriminate.
    + apply bind_Ok in H. destruct H as [found [w3 [_ H]]].
      destruct found as [machine|].
      * exact (IH (ex_intro _ bad (conj Hin Hbad)) _ _ _ _ _ H).
      * apply ret_Ok in H. destruct H as [H _]. now injection H as <- _.
  - apply ret_Ok in H. destruct H as [H _]. now injection H as <- _.
Qed.

(** [Machines] never returns a machine. *)
Lemma Machines_empty ds w ms e w' :
  Machines ds w = Ok (ms, e) w' -> ms = [].
Proof.
  unfold Machines. intros H.
  apply bind_Ok in H. destruct H as [g [w1 [Hg H]]].
  unfold etcdGet in Hg. injection Hg as Hg1 Hg2. subst g w1.
  destruct (Etcd.Get (store w) (prefixify ds "/machines")) as [err|resp] eqn:Hget.
  - apply ret_Ok in H. destruct H as [H _]. now injection H as <- _.
  - pose proof (machines_key_nonempty ds) as HK.
    destruct (Etcd_Get_inr _ _ _ Hget HK) as [e0 [_ Hch]].
    destruct (Etcd.RespNodes resp) as [|ent rest] eqn:Hents.
    + apply ret_Ok in H. destruct H as [H _]. now injection H as <- _.
    + (* the first entry either stops the loop or points at a node *)
      pose proof H as Hloop.
      cbn [Machines_loop] in H.
      apply bind_Ok in H. destruct H as [name [w1 [Hn H]]].
      apply must_Ok in Hn. destruct Hn as [Hn Hw1]. subst w1.
      apply bind_Ok in H. destruct H as [text [w2 [Hc H]]].
      apply must_Ok in Hc. destruct Hc as [Hc Hw2]. subst w2.
      destruct (Net.ParseMAC text) as [macAddr|] eqn:Hp;
        [|apply ret_Ok in H; destruct H as [H _]; now injection H as <- _].
      apply bind_Ok in H. destruct H as [found [w3 [Hgm H]]].
      destruct found as [machine|];
        [|apply ret_Ok in H; destruct H as [H _]; now injection H as <- _].
      (* the node that [GetMachine] found is listed too *)
      assert (Hchild := node_key_is_child ds _ (node_name_plain macAddr)).
      cbn [append] in Hchild.
      unfold GetMachine in Hgm.
      apply bind_Ok in Hgm. destruct Hgm as [g [w4 [Hg Hgm]]].
      unfold etcdGet in Hg. injection Hg as Hg1 Hg2. subst g w4.
      destruct (Etcd.Get (store w) (prefixify ds (Go.path_Join _)))
        as [err|resp1] eqn:Hget1;
        [apply ret_Ok in Hgm; destruct Hgm as [Hgm _]; discriminate|].
      destruct (Etcd_Get_inr _ _ _ Hget1) as [e1 [Hl1 _]].
      { rewrite Hchild. intros Hnil. apply app_eq_nil in Hnil.
        destruct Hnil as [_ Hnil]. discriminate. }
      rewrite Hchild in Hl1. apply lookup_In, children_In in Hl1.
      apply (Machines_loop_refused ds (ent :: rest)) with (acc := []) (w := w)
        (e := e) (w' := w'); [|exact Hloop].
      eexists. split; [rewrite Hch; exact Hl1|apply node_entry_refused].
Qed.

End EmptySnapshot.

(** ** What follows for the allocator and the handler *)

Section Consequences.

Import Datasource Notions.

Lemma Machines_loop_count ds ents :
  forall acc w ms w',
    Machines_loop ds ents acc w = Ok (ms, None) w' ->
    List.length ms = (List.length acc + List.length ents)%nat.
Proof.
  induction ents as [|ent rest IH]; intros acc w ms w' H.
  - apply ret_Ok in H. destruct H as [H _]. injection H as <-.
    cbn [List.length]. lia.
  - cbn [Machines_loop] in H.
    apply bind_Ok in H. destruct H as [name [w1 [_ H]]].
    apply bind_Ok in H. destruct H as [text [w2 [_ H]]].
    destruct (Net.ParseMAC text) as [macAddr|];
      [|apply ret_Ok in H; destruct H as [H _]; discriminate].
    apply bind_Ok in H. destruct H as [found [w3 [_ H]]].
    destruct found as [machine|];
      [|apply ret_Ok in H; destruct H as [H _]; discriminate].
    rewrite (IH _ _ _ _ H), length_app. cbn [List.length]. lia.
Qed.

(** [Machines] reports no error only when [machines/] has no entry. *)
Lemma Machines_ok_empty_listing ds w ms w' :
  Machines ds w = Ok (ms, None) w' ->
  Etcd.children (store w) (Etcd.key_of (prefixify ds "/machines")) = [].
Proof.
  intros H. pose proof (Machines_empty _ _ _ _ _ H) as ->.
  unfold Machines in H.
  apply bind_Ok in H. destruct H as [g [w1 [Hg H]]].
  unfold etcdGet in Hg. injection Hg as Hg1 Hg2. subst g w1.
  destruct (Etcd.Get (store w) (prefixify ds "/machines")) as [err|resp] eqn:Hget;
    [apply ret_Ok in H; destruct H as [H _]; discriminate|].
  destruct (Etcd_Get_inr _ _ _ Hget (machines_key_nonempty ds)) as [e0 [_ Hch]].
  rewrite <- Hch. apply Machines_loop_count in H. cbn [List.length] in H.
  destruct (Etcd.RespNodes resp); [reflexivity|discriminate H].
Qed.

(** X18.  [Machines] never returns a machine, whatever the store holds and
    whatever the prefix: its list is empty, and it reports no error only
    when the [machines/] directory has no entry at all. *)
Theorem Machines_returns_no_machine ds w ms e w' :
  Machines ds w = Ok (ms, e) w' ->
  ms = [] /\
  (e = None ->
   Etcd.children (store w) (Etcd.key_of (prefixify ds "/machines")) = []).
Proof.
  intros H. split; [exact (Machines_empty _ _ _ _ _ H)|].
  intros ->. exact (Machines_ok_empty_listing _ _ _ _ H).
Qed.

(** X19.  [CreateMachine] writes a node only into a registry without
    entries: when it succeeds, the [machines/] directory it was called on
    had none. *)
Theorem CreateMachine_only_into_empty_registry ds mac ip w m w' :
  CreateMachine ds mac ip w = Ok (Some m) w' ->
  Etcd.children (store w) (Etcd.key_of (prefixify ds "/machines")) = [].
Proof.
  unfold CreateMachine. intros H.
  apply bind_Ok in H. destruct H as [[ms e] [w1 [Hm H]]].
  destruct e as [e|]; [apply ret_Ok in H; destruct H as [H _]; discriminate|].
  exact (Machines_ok_empty_listing _ _ _ _ Hm).
Qed.

(** X20.  What [Assign] hands out: it never reports an error, and the
    address it returns is the first one of the pool for every caller,
    [IPAdd(leaseStart, 0)], or nil when the pool has no address. *)
Theorem Assign_always_first ds nic w ip err w' :
  Assign ds nic w = Ok (ip, err) w' ->
  err = None /\
  ((leaseRange ds <= 0 /\ ip = []) \/
   (0 < leaseRange ds /\ Dhcp4.IPAdd (leaseStart ds) 0 = Some ip)).
Proof.
  intros H. split; [exact (Assign_err_nil _ _ _ _ _ _ H)|].
  unfold Assign in H.
  apply bind_Ok in H. destruct H as [[ms e] [w1 [Hm H]]].
  pose proof (Machines_empty _ _ _ _ _ Hm) as ->.
  apply bind_Ok in H. destruct H as [r [w2 [Hf H]]].
  apply ret_Ok in Hf. destruct Hf as [<- <-].
  unfold LeaseRange in H.
  destruct (Z.to_nat (leaseRange ds)) as [|fuel] eqn:Ef.
  - apply ret_Ok in H. destruct H as [H _]. injection H as <- _.
    left. split; [lia|reflexivity].
  - cbn [Assign_scan] in H.
    apply bind_Ok in H. destruct H as [ip0 [w3 [Hadd H]]].
    apply must_Ok in Hadd. destruct Hadd as [Hadd ->].
    cbn [mem existsb negb] in H.
    apply bind_Ok in H. destruct H as [c [w4 [_ H]]].
    apply ret_Ok in H. destruct H as [H _]. injection H as <- _.
    right. split; [lia|exact Hadd].
Qed.

Lemma Request_granted ds nic currentIP w ip err w' :
  Request ds nic currentIP w = Ok (ip, err) w' ->
  err = None /\ ip = currentIP.
Proof.
  unfold Request. intros H.
  apply bind_Ok in H. destruct H as [[ms e] [w1 [Hm H]]].
  pose proof (Machines_empty _ _ _ _ _ Hm) as ->.
  apply bind_Ok in H. destruct H as [r [w2 [Hf H]]].
  apply ret_Ok in Hf. destruct Hf as [<- <-].
  cbn [orb] in H.
  apply bind_Ok in H. destruct H as [c [w3 [_ H]]].
  apply ret_Ok in H. destruct H as [H _]. injection H as <- <-.
  split; reflexivity.
Qed.

(** X21.  [Request] refuses nobody: whenever it returns, it returns the
    requested address and no error. *)
Theorem Request_always_granted ds nic currentIP w ip err w' :
  Request ds nic currentIP w = Ok (ip, err) w' ->
  err = None /\ ip = currentIP.
Proof. apply Request_granted. Qed.

(** X22.  The handler never sends a Nak: every reply to a Discover is an
    Offer and every reply to a Request is an Ack. *)
Theorem handler_never_naks h v p mt options w pkt w' :
  DHCP.ServeDHCP h v p mt options w = Ok (Some pkt) w' ->
  (mt = Packet.Discover /\ Props.reply_is pkt Packet.Offer) \/
  (mt = Packet.Request /\ Props.reply_is pkt Packet.ACK).
Proof.
  intros Hrun.
  destruct (ServeDHCP_reply _ _ _ _ _ _ _ _ Hrun) as [ro [_ Hcase]].
  unfold Props.reply_is.
  destruct Hcase as [[-> [tail [_ Ho]]]|[[-> Ho]|[-> [tail [_ Ho]]]]].
  - left. split; [reflexivity|]. rewrite Ho, get_app. reflexivity.
  - exfalso. revert Hrun. unfold DHCP.ServeDHCP.
    destruct (DHCP.DNSAddresses h) as [dns [e|]]; [discriminate|].
    intros H.
    destruct (match Packet.get options Packet.OptionServerIdentifier with
              | Some server => negb (Net.Equal server (DHCP.ServerIP (DHCP.settings h)))
              | None => false
              end); [apply ret_Ok in H; destruct H; discriminate|].
    match type of H with
    | (if ?c then _ else _) _ = _ => destruct c
    end; [apply ret_Ok in H; destruct H; discriminate|].
    apply bind_Ok in H. destruct H as [[ip err] [w1 [Hreq H]]].
    destruct (Request_granted _ _ _ _ _ _ _ Hreq) as [-> _].
    apply bind_Ok in H. destruct H as [packet [w2 [Hpxe H]]].
    apply ret_Ok in H. destruct H as [H _]. injection H as <-.
    apply addPXE_Opts in Hpxe. destruct Hpxe as [t [_ [Hop _]]].
    cbn [Packet.Opts Packet.AddOption] in Ho.
    rewrite Hop, Opts_ReplyPacket in Ho. discriminate Ho.
  - right. split; [reflexivity|]. rewrite Ho, get_app. reflexivity.
Qed.

End Consequences.

(** * The further properties at work *)

Section Witnesses.

Import Datasource Accessors Props Notions Scenario Examples.


Lemma flag_set_get_delete_witness :
  GetFlag ds (mkMachine mac1) "state" w_flag = Ok ("installed", None) w_flag /\
  exists w2,
    GetAndDeleteFlag ds (mkMachine mac1) "state" w_flag = Ok ("installed", None) w2 /\
    GetFlag ds (mkMachine mac1) "state" w2 = Ok ("", Some "Key not found") w2.
Proof.
  apply (flag_set_get_delete ds (mkMachine mac1) "state" "installed" w0 w_flag).
  vm_compute. reflexivity.
Defined.



Lemma readers_leave_the_world_witness :
  world_of (Machines ds w_one) w_one = w_one.
Proof.
  apply (proj1 (readers_leave_the_world ds w_one)
               ([], Some "invalid MAC address")).
  vm_compute. reflexivity.
Defined.

Lemma CreateMachine_refusal_witness :
  world_of (CreateMachine ds mac2 [10; 0; 0; 11] w_one) w_one = w_one.
Proof.
  apply (proj1 (CreateMachine_refusal ds mac2 [10; 0; 0; 11] w_one)).
  vm_compute. reflexivity.
Defined.

Lemma addColonToMacAddress_bounds_witness :
  addColonToMacAddress "aabbccddee0" = None.
Proof.
  apply (proj1 addColonToMacAddress_bounds "aabbccddee0").
  simpl. lia.
Defined.

Lemma Name_injective_witness : mkMachine mac1 = mkMachine mac1.
Proof.
  apply (Name_injective (mkMachine mac1) (mkMachine mac1)).
  - unfold is_bytes. simpl. repeat (apply Forall_cons; [lia|]). apply Forall_nil.
  - unfold is_bytes. simpl. repeat (apply Forall_cons; [lia|]). apply Forall_nil.
  - reflexivity.
Defined.

Lemma name_hex_digits_round_trip_witness :
  exists digits text,
    Go.str_from (Name (mkMachine [170; 187; 204; 221; 238; 1])) 4 = Some digits /\
    addColonToMacAddress digits = Some text /\
    text = Net.HardwareAddr_String [170; 187; 204; 221; 238; 1] /\
    Net.ParseMAC text = Some [170; 187; 204; 221; 238; 1].
Proof.
  apply (name_hex_digits_round_trip 170 187 204 221 238 1).
  unfold is_bytes. repeat (apply Forall_cons; [lia|]). apply Forall_nil.
Defined.

Lemma unixNanoStringToTime_round_trip_witness :
  unixNanoStringToTime (Go.itoa 1000) w0 = Ok (1000, None) w0.
Proof.
  apply (proj1 (unixNanoStringToTime_round_trip 1000 "" w0)).
  lia.
Defined.


Lemma lease_option_in_reply_witness :
  exists n, 24 <= n < 48 /\
    Packet.get (Packet.Opts (reply_of discover1)) Packet.OptionIPAddressLeaseTime
      = Some (Net.PutUint32 (3600 * n)).
Proof.
  apply (lease_option_in_reply (handler ds) 5 (from mac1) Packet.Discover [] w0
           (reply_of discover1) (world_of discover1 w0)).
  - vm_compute. reflexivity.
  - left. vm_compute. reflexivity.
Defined.

Lemma no_pxe_options_without_guid_witness :
  Packet.get (Packet.Opts (reply_of discover1)) 60 = None /\
  Packet.get (Packet.Opts (reply_of discover1)) 97 = None /\
  Packet.get (Packet.Opts (reply_of discover1)) 43 = None.
Proof.
  apply (no_pxe_options_without_guid (handler ds) 5 (from mac1) Packet.Discover []
           w0 (reply_of discover1) (world_of discover1 w0)).
  - vm_compute. reflexivity.
  - reflexivity.
Defined.

Lemma reply_yiaddr_witness :
  Packet.YIAddr (reply_of request1) =
    requested (from mac1) [(Packet.OptionRequestedIPAddress, [10; 0; 0; 10])] /\
  List.length (requested (from mac1)
                 [(Packet.OptionRequestedIPAddress, [10; 0; 0; 10])]) = 4%nat /\
  Net.Equal (requested (from mac1)
               [(Packet.OptionRequestedIPAddress, [10; 0; 0; 10])]) Net.IPv4zero
    = false.
Proof.
  apply (proj2 (reply_yiaddr (handler ds) 5 (from mac1) Packet.Request
                  [(Packet.OptionRequestedIPAddress, [10; 0; 0; 10])] w0
                  (reply_of request1) (world_of request1 w0) eq_refl)).
  vm_compute. reflexivity.
Defined.

Lemma parameter_request_list_selects_witness :
  Packet.get (Packet.Opts (reply_of discover_listed)) Packet.OptionSubnetMask =
    (if wanted [(Packet.OptionParameterRequestList, [1; 3])] 1
     then Some (Net.To4 (DHCP.SubnetMask (DHCP.settings (handler ds)))) else None) /\
  Packet.get (Packet.Opts (reply_of discover_listed)) Packet.OptionDomainNameServer =
    (if wanted [(Packet.OptionParameterRequestList, [1; 3])] 6
     then Some (fst (DHCP.DNSAddresses (handler ds))) else None) /\
  Packet.get (Packet.Opts (reply_of discover_listed)) Packet.OptionRouter =
    (if wanted [(Packet.OptionParameterRequestList, [1; 3])] 3
     then match DHCP.RouterAddr (DHCP.settings (handler ds)) with
          | [] => None
          | _ => Some (Net.To4 (DHCP.RouterAddr (DHCP.settings (handler ds))))
          end
     else None).
Proof.
  apply (parameter_request_list_selects (handler ds) 5 (from mac1) Packet.Discover
           [(Packet.OptionParameterRequestList, [1; 3])] w0
           (reply_of discover_listed) (world_of discover_listed w0)).
  - vm_compute. reflexivity.
  - left. vm_compute. reflexivity.
Defined.

Lemma fillPXE_is_bytes_witness :
  is_bytes (DHCP.fillPXE (handler ds)) /\
  Z.of_nat (List.length (DHCP.fillPXE (handler ds))) =
    17 + Z.of_nat (List.length (Net.To4 (DHCP.ServerIP (DHCP.settings (handler ds)))))
    + 2 * Go.len (DHCP.bootMessage (handler ds)).
Proof.
  apply (fillPXE_is_bytes (handler ds)).
  unfold is_bytes. simpl. repeat (apply Forall_cons; [lia|]). apply Forall_nil.
Defined.

Lemma interfaceIP_priority_witness :
  (@None string = None ->
     List.length [10; 0; 0; 1] = 4%nat /\
     (exists a mask, In (Main.IPNet a mask) addrs /\ Net.To4 a = [10; 0; 0; 1]) /\
     (Main.IsGlobalUnicast [10; 0; 0; 1] = true \/
      (~ has Main.IsGlobalUnicast addrs /\ Main.IsLinkLocalUnicast [10; 0; 0; 1] = true) \/
      (~ has Main.IsGlobalUnicast addrs /\ ~ has Main.IsLinkLocalUnicast addrs /\
       Main.IsLoopback [10; 0; 0; 1] = true))) /\
  (@None string <> None ->
     [10; 0; 0; 1] = [] /\ ~ has Main.IsGlobalUnicast addrs /\
     ~ has Main.IsLinkLocalUnicast addrs /\ ~ has Main.IsLoopback addrs).
Proof.
  apply (interfaceIP_priority addrs [10; 0; 0; 1] None).
  vm_compute. reflexivity.
Defined.

Lemma Machines_returns_no_machine_witness :
  @nil EtcdMachine = [] /\
  (Some "invalid MAC address" = None ->
   Etcd.children (store w_one) (Etcd.key_of (prefixify ds "/machines")) = []).
Proof.
  apply (Machines_returns_no_machine ds w_one [] (Some "invalid MAC address") w_one).
  vm_compute. reflexivity.
Defined.

Lemma CreateMachine_only_into_empty_registry_witness :
  Etcd.children (store w0) (Etcd.key_of (prefixify ds "/machines")) = [].
Proof.
  apply (CreateMachine_only_into_empty_registry ds mac1 [10; 0; 0; 10] w0
           (mkMachine mac1) w_one).
  vm_compute. reflexivity.
Defined.

Lemma Assign_always_first_witness :
  @None string = None /\
  ((leaseRange ds <= 0 /\ [10; 0; 0; 10] = []) \/
   (0 < leaseRange ds /\ Dhcp4.IPAdd (leaseStart ds) 0 = Some [10; 0; 0; 10])).
Proof.
  apply (Assign_always_first ds nic2 w_one [10; 0; 0; 10] None
           (world_of (Assign ds nic2 w_one) w_one)).
  vm_compute. reflexivity.
Defined.

Lemma Request_always_granted_witness :
  @None string = None /\ [10; 0; 0; 42] = [10; 0; 0; 42].
Proof.
  apply (Request_always_granted ds nic1 [10; 0; 0; 42] w_one [10; 0; 0; 42] None
           (world_of (Request ds nic1 [10; 0; 0; 42] w_one) w_one)).
  vm_compute. reflexivity.
Defined.

Lemma handler_never_naks_witness :
  (Packet.Request = Packet.Discover /\ reply_is (reply_of request1) Packet.Offer) \/
  (Packet.Request = Packet.Request /\ reply_is (reply_of request1) Packet.ACK).
Proof.
  apply (handler_never_naks (handler ds) 5 (from mac1) Packet.Request
           [(Packet.OptionRequestedIPAddress, [10; 0; 0; 10])] w0
           (reply_of request1) (world_of request1 w0)).
  vm_compute. reflexivity.
Defined.

End Witnesses.
